(** * py_wrike_v4: the Wrike client of [src/py_wrike_v4/wrike.py]

    A shallow embedding of class [Wrike]: the five lazily populated
    caches, [reinitialize], the v2-to-v4 id lookup, the project status
    extractor and the timelog query, together with the fragment of
    Python's data model those methods rely on (truthiness, [str] and
    [repr], subscription, insertion-ordered dictionaries). *)

From Stdlib Require Import ZArith NArith List String Ascii Bool Lia.
From Stdlib Require Import DecimalString.
Import ListNotations.
Local Open Scope string_scope.
Local Open Scope Z_scope.

#[local] Set Warnings "-register-all".

(** ** Python values *)

Module Py.

(** The values that flow through the client: what [response.json()]
    yields and what callers pass in.  A string is a sequence of code
    points below 256, one per [ascii].  Numbers are Python ints; JSON
    numbers with a fraction or an exponent are not represented.  A
    dictionary is the list of its items in insertion order. *)
Inductive value : Type :=
| VNone
| VBool (b : bool)
| VInt (z : Z)
| VStr (s : string)
| VList (items : list value)
| VDict (items : list (value * value)).

Definition pydict : Type := list (value * value).

(** The exceptions the modelled code can raise.  [Raised] stands for
    whatever [requests.get] or [response.json()] raises. *)
Inductive exn : Type :=
| KeyError (key : value)
| TypeError
| IndexError
| AttributeError
| Raised (what : string).

Definition result (A : Type) : Type := (exn + A)%type.

Abbreviation ok := (@inr exn _).
Abbreviation raise := (@inl exn _).

Definition rbind {A B} (r : result A) (f : A -> result B) : result B :=
  match r with
  | inl e => inl e
  | inr a => f a
  end.

(** [bool(v)] *)
Definition truthy (v : value) : bool :=
  match v with
  | VNone => false
  | VBool b => b
  | VInt z => negb (z =? 0)
  | VStr s => negb (String.eqb s "")
  | VList l => match l with [] => false | _ => true end
  | VDict d => match d with [] => false | _ => true end
  end.

(** *** [repr] and [str] *)

Definition dquote : ascii := "034"%char.
Definition squote : ascii := "'"%char.
Definition backslash : ascii := "\"%char.

Definition hexdigit (n : N) : ascii :=
  match n with
  | 0 => "0" | 1 => "1" | 2 => "2" | 3 => "3" | 4 => "4" | 5 => "5"
  | 6 => "6" | 7 => "7" | 8 => "8" | 9 => "9" | 10 => "a" | 11 => "b"
  | 12 => "c" | 13 => "d" | 14 => "e" | _ => "f"
  end%N%char.

Definition hex_escape (n : N) : string :=
  String backslash
    (String "x" (String (hexdigit (N.shiftr n 4)) (String (hexdigit (N.land n 15)) ""))).

(** [Py_UNICODE_ISPRINTABLE] on the code points 128..255: the C1
    controls, the no-break space and the soft hyphen are not. *)
Definition isprintable_high (n : N) : bool :=
  negb ((n <=? 160) || (n =? 173))%N.

Fixpoint contains_char (c : ascii) (s : string) : bool :=
  match s with
  | EmptyString => false
  | String a r => Ascii.eqb a c || contains_char c r
  end.

(** The quote [repr] wraps a string in: double quotes only when the
    string has a single quote and no double quote. *)
Definition repr_quote (s : string) : ascii :=
  if contains_char squote s && negb (contains_char dquote s)
  then dquote else squote.

Definition repr_char (quote c : ascii) : string :=
  let n := N_of_ascii c in
  if Ascii.eqb c quote || Ascii.eqb c backslash then String backslash (String c "")
  else if (n =? 9)%N then String backslash "t"
  else if (n =? 10)%N then String backslash "n"
  else if (n =? 13)%N then String backslash "r"
  else if ((n <? 32) || (n =? 127))%N then hex_escape n
  else if (n <? 127)%N then String c ""
  else if isprintable_high n then String c ""
  else hex_escape n.

Fixpoint repr_chars (quote : ascii) (s : string) : string :=
  match s with
  | EmptyString => ""
  | String c r => repr_char quote c ++ repr_chars quote r
  end.

Definition repr_str (s : string) : string :=
  let q := repr_quote s in
  String q (repr_chars q s ++ String q "").

Definition repr_int (z : Z) : string := NilZero.string_of_int (Z.to_int z).

(** [sep.join(l)] *)
Fixpoint join (sep : string) (l : list string) : string :=
  match l with
  | [] => ""
  | [x] => x
  | x :: r => x ++ sep ++ join sep r
  end.

(** [repr(v)]: containers render their items with [repr], separated by
    a comma and a space. *)
Fixpoint repr (v : value) : string :=
  match v with
  | VNone => "None"
  | VBool true => "True"
  | VBool false => "False"
  | VInt z => repr_int z
  | VStr s => repr_str s
  | VList l => "[" ++ join ", " (map repr l) ++ "]"
  | VDict d =>
      "{" ++ join ", " (map (fun '(k, x) => repr k ++ ": " ++ repr x) d) ++ "}"
  end.

(** [str(v)]: a string is itself, anything else is its [repr]. *)
Definition str (v : value) : string :=
  match v with
  | VStr s => s
  | _ => repr v
  end.

(** *** Dictionaries

    Keys compare the way Python hashes them: [True] and [1] are one
    key, [False] and [0] another; lists and dictionaries cannot be
    keys. *)

Definition hashable (k : value) : bool :=
  match k with
  | VList _ | VDict _ => false
  | _ => true
  end.

Definition as_int (k : value) : option Z :=
  match k with
  | VInt z => Some z
  | VBool true => Some 1
  | VBool false => Some 0
  | _ => None
  end.

Definition key_eqb (a b : value) : bool :=
  match a, b with
  | VNone, VNone => true
  | VStr s, VStr t => String.eqb s t
  | _, _ =>
      match as_int a, as_int b with
      | Some x, Some y => x =? y
      | _, _ => false
      end
  end.

Fixpoint dict_find (d : pydict) (k : value) : option value :=
  match d with
  | [] => None
  | (k', v) :: r => if key_eqb k' k then Some v else dict_find r k
  end.

(** [d[k] = v] on a dictionary: an existing key keeps its place, a
    new one goes last. *)
Fixpoint dict_put (d : pydict) (k v : value) : pydict :=
  match d with
  | [] => [(k, v)]
  | (k', v') :: r =>
      if key_eqb k' k then (k', v) :: r else (k', v') :: dict_put r k v
  end.

Definition dict_getitem (d : pydict) (k : value) : result value :=
  if hashable k then
    match dict_find d k with
    | Some v => ok v
    | None => raise (KeyError k)
    end
  else raise TypeError.

Definition dict_setitem (d : pydict) (k v : value) : result pydict :=
  if hashable k then ok (dict_put d k v) else raise TypeError.

Definition values (d : pydict) : list value := map snd d.
Definition keys (d : pydict) : list value := map fst d.

(** *** Subscription and iteration *)

Fixpoint chars (s : string) : list value :=
  match s with
  | EmptyString => []
  | String c r => VStr (String c "") :: chars r
  end.

(** Sequence indexing: a negative index counts from the end. *)
Definition seq_getitem (l : list value) (i : Z) : result value :=
  let n := Z.of_nat (List.length l) in
  let j := if i <? 0 then i + n else i in
  if (j <? 0) || (n <=? j) then raise IndexError
  else match nth_error l (Z.to_nat j) with
       | Some v => ok v
       | None => raise IndexError
       end.

(** [x[k]] *)
Definition getitem (x k : value) : result value :=
  match x with
  | VDict d => dict_getitem d k
  | VList l =>
      match as_int k with
      | Some i => seq_getitem l i
      | None => raise TypeError
      end
  | VStr s =>
      match as_int k with
      | Some i => seq_getitem (chars s) i
      | None => raise TypeError
      end
  | _ => raise TypeError
  end.

(** What [for item in x] runs over. *)
Definition iter (x : value) : result (list value) :=
  match x with
  | VList l => ok l
  | VDict d => ok (keys d)
  | VStr s => ok (chars s)
  | _ => raise TypeError
  end.

(** [x[k] = v], giving the updated container. *)
Definition setitem (x k v : value) : result value :=
  match x with
  | VDict d => rbind (dict_setitem d k v) (fun d' => ok (VDict d'))
  | VList l =>
      match as_int k with
      | Some i =>
          let n := Z.of_nat (List.length l) in
          let j := if i <? 0 then i + n else i in
          if (j <? 0) || (n <=? j) then raise IndexError
          else ok (VList (firstn (Z.to_nat j) l ++ v :: skipn (S (Z.to_nat j)) l))
      | None => raise TypeError
      end
  | _ => raise TypeError
  end.

(** [x.values()]: only dictionaries have the method. *)
Definition values_of (x : value) : result (list value) :=
  match x with
  | VDict d => ok (values d)
  | _ => raise AttributeError
  end.

(** [x.items()]: only dictionaries have the method. *)
Definition items_of (x : value) : result (list (value * value)) :=
  match x with
  | VDict d => ok d
  | _ => raise AttributeError
  end.

(** [v == s] for a string [s]: only the same string is equal to it. *)
Definition eq_str (v : value) (s : string) : bool :=
  match v with
  | VStr t => String.eqb t s
  | _ => false
  end.

End Py.

Import Py.

(** ** The helpers module *)

Module Helpers.

(** Modelled from the spec: [convert_list_to_dict] lives in
    [py_wrike_v4/helpers.py], which is not among the sources.  The
    spec's [toDictionary] builds a mapping keyed by each record's [id],
    indexing the record directly (a record without [id] raises) and
    letting a later record replace an earlier one with the same id. *)
Fixpoint index_by_id (records : list value) (acc : pydict) : result pydict :=
  match records with
  | [] => ok acc
  | record :: rest =>
      rbind (getitem record (VStr "id")) (fun k =>
      rbind (dict_setitem acc k record) (fun acc' =>
      index_by_id rest acc'))
  end.

(** Modelled from the spec: the entry point of the conversion above,
    run over whatever iterating the argument yields. *)
Definition convert_list_to_dict (l : value) : result value :=
  rbind (iter l) (fun records =>
  rbind (index_by_id records []) (fun d => ok (VDict d))).

(** Modelled from the spec: [convert_list_to_string] lives in
    [py_wrike_v4/helpers.py], which is not among the sources.  The
    spec's [toIdList] joins the ids with a comma into one path
    segment; no id gives the empty string. *)
Definition convert_list_to_string (id4s : list string) : string :=
  join "," id4s.

End Helpers.

Import Helpers.

(** ** The client *)

Module Wrike.

Inductive http_method : Type := GET | POST.

(** One call of [requests.get] or [requests.post]. *)
Record request : Type := {
  meth : http_method;
  url : string;
  headers : list (string * string);
  params : option (list (string * string));
  json : option value;
  verify : bool
}.

(** The attributes of a [Wrike] object.  A cache attribute holds
    [VNone] or whatever the last population stored. *)
Record t : Type := {
  base_url : string;
  ssl_verify : bool;
  __headers : list (string * string);
  _contacts : value;
  _custom_fields : value;
  _custom_statuses : value;
  _folders : value;
  _workflows : value
}.

(** The object together with the requests sent so far, oldest first. *)
Record state : Type := {
  self : t;
  log : list request
}.

(** A method body: it may raise, and what it did to the object and the
    network before raising stays done. *)
Definition M (A : Type) : Type := state -> result A * state.

Definition ret {A} (a : A) : M A := fun st => (ok a, st).

Definition bind {A B} (c : M A) (f : A -> M B) : M B :=
  fun st =>
    match c st with
    | (inl e, st') => (inl e, st')
    | (inr a, st') => f a st'
    end.

Definition lift {A} (r : result A) : M A := fun st => (r, st).

Declare Scope wrike_scope.
Delimit Scope wrike_scope with wrike.
Notation "x <- c ;; k" := (bind c (fun x => k))
  (at level 100, c at next level, right associativity) : wrike_scope.
Notation "c ;; k" := (bind c (fun _ => k))
  (at level 100, right associativity) : wrike_scope.
Local Open Scope wrike_scope.

Fixpoint for_each {A} (l : list A) (body : A -> M unit) : M unit :=
  match l with
  | [] => ret tt
  | x :: r => body x ;; for_each r body
  end.

Definition attr {A} (field : t -> A) : M A := fun st => (ok (field (self st)), st).

Definition update (f : t -> t) : M unit :=
  fun st => (ok tt, {| self := f (self st); log := log st |}).

Definition with_contacts (v : value) (w : t) : t :=
  {| base_url := base_url w; ssl_verify := ssl_verify w; __headers := __headers w;
     _contacts := v; _custom_fields := _custom_fields w;
     _custom_statuses := _custom_statuses w; _folders := _folders w;
     _workflows := _workflows w |}.

Definition with_custom_fields (v : value) (w : t) : t :=
  {| base_url := base_url w; ssl_verify := ssl_verify w; __headers := __headers w;
     _contacts := _contacts w; _custom_fields := v;
     _custom_statuses := _custom_statuses w; _folders := _folders w;
     _workflows := _workflows w |}.

Definition with_custom_statuses (v : value) (w : t) : t :=
  {| base_url := base_url w; ssl_verify := ssl_verify w; __headers := __headers w;
     _contacts := _contacts w; _custom_fields := _custom_fields w;
     _custom_statuses := v; _folders := _folders w;
     _workflows := _workflows w |}.

Definition with_folders (v : value) (w : t) : t :=
  {| base_url := base_url w; ssl_verify := ssl_verify w; __headers := __headers w;
     _contacts := _contacts w; _custom_fields := _custom_fields w;
     _custom_statuses := _custom_statuses w; _folders := v;
     _workflows := _workflows w |}.

Definition with_workflows (v : value) (w : t) : t :=
  {| base_url := base_url w; ssl_verify := ssl_verify w; __headers := __headers w;
     _contacts := _contacts w; _custom_fields := _custom_fields w;
     _custom_statuses := _custom_statuses w; _folders := _folders w;
     _workflows := v |}.

(** [Wrike.IdTypes] *)
Inductive IdTypes : Type :=
| ACCOUNT | USER | FOLDER | TASK | COMMENT | ATTACHMENT | TIMELOG.

Definition IdTypes_value (i : IdTypes) : string :=
  match i with
  | ACCOUNT => "ApiV2Account"
  | USER => "ApiV2User"
  | FOLDER => "ApiV2Folder"
  | TASK => "ApiV2Task"
  | COMMENT => "ApiV2Comment"
  | ATTACHMENT => "ApiV2Attachment"
  | TIMELOG => "ApiV2Timelog"
  end.

(** [extract_project_value_from_folder]: the traversal inside [try],
    then the [except Exception] that turns any failure into [None]. *)
Definition project_value (key : string) (folder : value) : result value :=
  rbind (getitem folder (VStr "project")) (fun project =>
  getitem project (VStr key)).

Definition extract_project_value_from_folder (key : string) (folder : value) : value :=
  match project_value key folder with
  | inr extract => extract
  | inl _ => VNone
  end.

(** The call [get] hands to [requests.get], and the one [post] hands
    to [requests.post]. *)
Definition get_request (w : t) (path : string)
    (params : option (list (string * string))) : request :=
  {| meth := GET; url := base_url w ++ path; headers := __headers w;
     params := params; json := None; verify := ssl_verify w |}.

Definition post_request (w : t) (path : string) (body : value) : request :=
  {| meth := POST; url := base_url w ++ path; headers := __headers w;
     params := None; json := Some body; verify := ssl_verify w |}.

Section Client.

(** The service: what a request returns, or raises, given the requests
    that came before it. *)
Variable server : list request -> request -> result value.

Definition send (rq : request) : M value :=
  fun st => (server (log st) rq, {| self := self st; log := log st ++ [rq] |}).

(** [get] and [post]: the request goes out and the parsed body comes
    back; the debug line [get] writes to the logger is left out. *)
Definition get (path : string) (params : option (list (string * string))) : M value :=
  w <- attr (fun w => w) ;;
  send (get_request w path params).

Definition post (path : string) (body : value) : M value :=
  w <- attr (fun w => w) ;;
  send (post_request w path body).

(** [__init__] and [reinitialize] *)
Definition reinitialize : M unit :=
  update (with_contacts VNone) ;;
  update (with_custom_fields VNone) ;;
  update (with_custom_statuses VNone) ;;
  update (with_folders VNone) ;;
  update (with_workflows VNone).

Definition init (base_url perm_access_token : string) (ssl_verify : bool) : t :=
  {| base_url := base_url; ssl_verify := ssl_verify;
     __headers := [("Accept", "application/json");
                   ("Authorization", "Bearer " ++ perm_access_token)];
     _contacts := VNone; _custom_fields := VNone; _custom_statuses := VNone;
     _folders := VNone; _workflows := VNone |}.

Definition query_contacts_all : M value := get "contacts" None.
Definition query_custom_fields_all : M value := get "customfields" None.
Definition query_folders_all : M value := get "folders" None.
Definition query_workflows : M value := get "workflows" None.

(** The cached properties *)
Definition contacts : M value :=
  cached <- attr _contacts ;;
  (if negb (truthy cached) then
     response <- query_contacts_all ;;
     all_contacts <- lift (getitem response (VStr "data")) ;;
     d <- lift (convert_list_to_dict all_contacts) ;;
     update (with_contacts d)
   else ret tt) ;;
  attr _contacts.

Definition custom_fields : M value :=
  cached <- attr _custom_fields ;;
  (if negb (truthy cached) then
     response <- query_custom_fields_all ;;
     all_custom_fields <- lift (getitem response (VStr "data")) ;;
     d <- lift (convert_list_to_dict all_custom_fields) ;;
     update (with_custom_fields d)
   else ret tt) ;;
  attr _custom_fields.

Definition folders : M value :=
  cached <- attr _folders ;;
  (if negb (truthy cached) then
     response <- query_folders_all ;;
     all_folders <- lift (getitem response (VStr "data")) ;;
     d <- lift (convert_list_to_dict all_folders) ;;
     update (with_folders d)
   else ret tt) ;;
  attr _folders.

Definition workflows : M value :=
  cached <- attr _workflows ;;
  (if negb (truthy cached) then
     response <- query_workflows ;;
     workflows <- lift (getitem response (VStr "data")) ;;
     d <- lift (convert_list_to_dict workflows) ;;
     update (with_workflows d)
   else ret tt) ;;
  attr _workflows.

(** One pass of the inner loop of [custom_statuses]. *)
Definition add_custom_status (custom_status : value) : M unit :=
  k <- lift (getitem custom_status (VStr "id")) ;;
  target <- attr _custom_statuses ;;
  target' <- lift (setitem target k custom_status) ;;
  update (with_custom_statuses target').

(** One pass of the outer loop. *)
Definition add_workflow (workflow : value) : M unit :=
  statuses <- lift (getitem workflow (VStr "customStatuses")) ;;
  items <- lift (iter statuses) ;;
  for_each items add_custom_status.

Definition custom_statuses : M value :=
  cached <- attr _custom_statuses ;;
  (if negb (truthy cached) then
     update (with_custom_statuses (VDict [])) ;;
     all_workflows <- workflows ;;
     records <- lift (values_of all_workflows) ;;
     for_each records add_workflow
   else ret tt) ;;
  attr _custom_statuses.

(** [convert_to_id4s] *)
Definition convert_to_id4s (id2s : list string) (idType : IdTypes) : M value :=
  let params := [("type", IdTypes_value idType);
                 ("ids", str (VList (map VStr id2s)))] in
  get "ids/" (Some params).

(** [extract_project_status] *)
Definition extract_project_status (folder : value) : M value :=
  let status := extract_project_value_from_folder "status" folder in
  let custom_status_id := extract_project_value_from_folder "customStatusId" folder in
  if String.eqb (str status) "Custom" && truthy custom_status_id then
    table <- custom_statuses ;;
    record <- lift (getitem table custom_status_id) ;;
    lift (getitem record (VStr "name"))
  else ret status.

(** [query_timelogs] *)
Definition query_timelogs (location : string) (tracked_date : list string) : M value :=
  let dates := VList (map VStr tracked_date) in
  let params := [("descendants", "true")] in
  params <-
    (if truthy dates then
       if (Z.of_nat (List.length tracked_date) =? 1) then
         equal <- lift (getitem dates (VInt 0)) ;;
         ret (params ++ [("trackedDate", str (VDict [(VStr "equal", equal)]))])%list
       else if (Z.of_nat (List.length tracked_date) =? 2) then
         start <- lift (getitem dates (VInt 0)) ;;
         end_ <- lift (getitem dates (VInt 1)) ;;
         ret (params ++ [("trackedDate",
                          str (VDict [(VStr "start", start); (VStr "end", end_)]))])%list
       else ret params
     else ret params) ;;
  get (location ++ "/timelogs") (Some params).

(** The remaining query methods.  An id parameter annotated [str] is
    a string; [query_folder_subtrees] also receives whatever
    [folder["id"]] holds, which the f-string renders with [str]. *)
Definition query_contacts (id4s : list string) : M value :=
  let id4s := convert_list_to_string id4s in
  get ("contacts/" ++ id4s) None.

Definition query_contact_me : M value := get "contacts?me=true" None.

Definition query_custom_fields (id4s : list string) : M value :=
  let id4s := convert_list_to_string id4s in
  get ("customfields/" ++ id4s) None.

Definition query_folders (id4s : list string) : M value :=
  let id4s := convert_list_to_string id4s in
  get ("folders/" ++ id4s) None.

(** The loop of [query_folder_by_title]; falling off its end is the
    implicit [return None]. *)
Fixpoint first_titled (title : string) (items : list (value * value)) : result value :=
  match items with
  | [] => ok VNone
  | (key, folder) :: rest =>
      rbind (getitem folder (VStr "title")) (fun found =>
      if eq_str found title then ok folder else first_titled title rest)
  end.

Definition query_folder_by_title (title : string) : M value :=
  all_folders <- folders ;;
  items <- lift (items_of all_folders) ;;
  lift (first_titled title items).

Definition query_folder_subtrees (folder_id : value) : M value :=
  get ("folders/" ++ str folder_id ++ "/folders") None.

Definition query_folder_subtrees_by_title (title : string) : M value :=
  folder <- query_folder_by_title title ;;
  folder_id <- lift (getitem folder (VStr "id")) ;;
  query_folder_subtrees folder_id.

Definition query_group (group_id : string) : M value :=
  get ("groups/" ++ group_id) None.

Definition query_groups_all : M value := get "groups" None.

Definition query_tasks (id4s : list string) : M value :=
  let id4s := convert_list_to_string id4s in
  get ("tasks/" ++ id4s) None.

Definition query_tasks_all : M value := get "tasks" None.

Definition query_tasks_in_folder (folder_id : string) : M value :=
  get ("folders/" ++ folder_id ++ "/tasks") None.

Definition query_user (user_id : string) : M value :=
  get ("users/" ++ user_id) None.

End Client.

End Wrike.

Import Wrike.
Local Open Scope wrike_scope.

(** ** Vocabulary of the properties *)

(** The five cached resource kinds. *)
Inductive kind : Type :=
| Contacts | CustomFields | CustomStatuses | Folders | Workflows.

Definition accessor (server : list request -> request -> result value)
    (k : kind) : M value :=
  match k with
  | Contacts => contacts server
  | CustomFields => custom_fields server
  | CustomStatuses => custom_statuses server
  | Folders => folders server
  | Workflows => workflows server
  end.

Definition slot (k : kind) : t -> value :=
  match k with
  | Contacts => _contacts
  | CustomFields => _custom_fields
  | CustomStatuses => _custom_statuses
  | Folders => _folders
  | Workflows => _workflows
  end.

Definition with_slot (k : kind) : value -> t -> t :=
  match k with
  | Contacts => with_contacts
  | CustomFields => with_custom_fields
  | CustomStatuses => with_custom_statuses
  | Folders => with_folders
  | Workflows => with_workflows
  end.

(** The path a population of kind [k] fetches: custom statuses have no
    endpoint of their own and go through the workflows. *)
Definition endpoint (k : kind) : string :=
  match k with
  | Contacts => "contacts"
  | CustomFields => "customfields"
  | CustomStatuses => "workflows"
  | Folders => "folders"
  | Workflows => "workflows"
  end.

Definition fetch_request (w : t) (k : kind) : request :=
  get_request w (endpoint k) None.

Definition fetched (k : kind) : bool :=
  match k with
  | CustomStatuses => false
  | _ => true
  end.

(** What a fetching accessor stores for a response: the dictionary of
    its [data] member. *)
Definition populate (response : result value) : result value :=
  rbind response (fun body =>
  rbind (getitem body (VStr "data")) convert_list_to_dict).

(** The two loops of [custom_statuses] as a function of the table they
    start from. *)
Fixpoint add_statuses (items : list value) (table : value) : result value :=
  match items with
  | [] => ok table
  | custom_status :: rest =>
      rbind (getitem custom_status (VStr "id")) (fun k =>
      rbind (setitem table k custom_status) (add_statuses rest))
  end.

Definition statuses_of (workflow : value) : result (list value) :=
  rbind (getitem workflow (VStr "customStatuses")) iter.

Fixpoint add_workflows (records : list value) (table : value) : result value :=
  match records with
  | [] => ok table
  | workflow :: rest =>
      rbind (statuses_of workflow) (fun items =>
      rbind (add_statuses items table) (add_workflows rest))
  end.

Definition derive_statuses (all_workflows : value) : result value :=
  rbind (values_of all_workflows) (fun records =>
  add_workflows records (VDict [])).

(** What an accessor called on unpopulated caches returns, as a
    function of the one response it receives. *)
Definition fresh (k : kind) (response : result value) : result value :=
  match k with
  | CustomStatuses => rbind (populate response) derive_statuses
  | _ => populate response
  end.


(** The nested path [project.<key>] is missing from [folder]. *)
Inductive missing (key : string) : value -> Prop :=
| folder_not_a_dict folder :
    (forall d, folder <> VDict d) -> missing key folder
| no_project d :
    dict_find d (VStr "project") = None -> missing key (VDict d)
| project_not_a_dict d project :
    dict_find d (VStr "project") = Some project ->
    (forall p, project <> VDict p) -> missing key (VDict d)
| no_key d p :
    dict_find d (VStr "project") = Some (VDict p) ->
    dict_find p (VStr key) = None -> missing key (VDict d).

Definition status_of (folder : value) : value :=
  extract_project_value_from_folder "status" folder.

Definition custom_status_id_of (folder : value) : value :=
  extract_project_value_from_folder "customStatusId" folder.

(** The state a failed or finished fetch leaves when it stores nothing. *)
Definition sent (st : state) (rq : request) : state :=
  {| self := self st; log := log st ++ [rq] |}.

Definition stored (k : kind) (d : value) (st : state) : state :=
  {| self := with_slot k d (self st); log := log st |}.

(** Two states differ at most in the custom-status cache. *)
Definition same_but_statuses (st st' : state) : Prop :=
  log st' = log st /\
  base_url (self st') = base_url (self st) /\
  ssl_verify (self st') = ssl_verify (self st) /\
  __headers (self st') = __headers (self st) /\
  _contacts (self st') = _contacts (self st) /\
  _custom_fields (self st') = _custom_fields (self st) /\
  _folders (self st') = _folders (self st) /\
  _workflows (self st') = _workflows (self st).

(** ** Vocabulary of the further properties *)

(** A computation always leaves the state related to the one it
    started from. *)
Definition respects (R : state -> state -> Prop) {A} (c : M A) : Prop :=
  forall st, R st (snd (c st)).

Definition same_base (w w' : t) : Prop :=
  base_url w' = base_url w /\
  ssl_verify w' = ssl_verify w /\
  __headers w' = __headers w.

(** Nothing but the caches selected by [touched] differs. *)
Definition unchanged_outside (touched : kind -> bool) (st st' : state) : Prop :=
  same_base (self st) (self st') /\
  forall k, touched k = false -> slot k (self st') = slot k (self st).

Definition only (k : kind) (k' : kind) : bool :=
  match k, k' with
  | Contacts, Contacts | CustomFields, CustomFields | CustomStatuses, CustomStatuses
  | Folders, Folders | Workflows, Workflows => true
  | _, _ => false
  end.

(** The caches an accessor may write: its own, and for the custom
    statuses also the workflows it reads through. *)
Definition writes (k : kind) (k' : kind) : bool :=
  match k with
  | CustomStatuses => only CustomStatuses k' || only Workflows k'
  | _ => only k k'
  end.

(** A request made by object [w]: its URL extends the base URL, and
    it carries the object's headers and certificate setting. *)
Definition sent_by (w : t) (rq : request) : Prop :=
  (exists path, url rq = base_url w ++ path) /\
  headers rq = __headers w /\
  verify rq = ssl_verify w.

(** The base attributes are kept and the log only grows, by requests
    of the object. *)
Definition extends (st st' : state) : Prop :=
  same_base (self st) (self st') /\
  exists new, log st' = (log st ++ new)%list /\ Forall (sent_by (self st)) new.

(** The public operations of a client. *)
Inductive call : Type :=
| Reinitialize
| Access (k : kind)
| Get (path : string) (params : option (list (string * string)))
| Post (path : string) (body : value)
| ConvertToId4s (id2s : list string) (idType : IdTypes)
| QueryContacts (id4s : list string)
| QueryContactsAll
| QueryContactMe
| QueryCustomFields (id4s : list string)
| QueryCustomFieldsAll
| ExtractProjectStatus (folder : value)
| QueryFolders (id4s : list string)
| QueryFoldersAll
| QueryFolderByTitle (title : string)
| QueryFolderSubtrees (folder_id : value)
| QueryFolderSubtreesByTitle (title : string)
| QueryGroup (group_id : string)
| QueryGroupsAll
| QueryTasks (id4s : list string)
| QueryTasksAll
| QueryTasksInFolder (folder_id : string)
| QueryUser (user_id : string)
| QueryWorkflows
| QueryTimelogs (location : string) (tracked_date : list string).

(** The state a call leaves, whether it returns or raises. *)
Definition perform (server : list request -> request -> result value)
    (c : call) (st : state) : state :=
  match c with
  | Reinitialize => snd (reinitialize st)
  | Access k => snd (accessor server k st)
  | Get path ps => snd (get server path ps st)
  | Post path body => snd (post server path body st)
  | ConvertToId4s id2s idType => snd (convert_to_id4s server id2s idType st)
  | QueryContacts id4s => snd (query_contacts server id4s st)
  | QueryContactsAll => snd (query_contacts_all server st)
  | QueryContactMe => snd (query_contact_me server st)
  | QueryCustomFields id4s => snd (query_custom_fields server id4s st)
  | QueryCustomFieldsAll => snd (query_custom_fields_all server st)
  | ExtractProjectStatus folder => snd (extract_project_status server folder st)
  | QueryFolders id4s => snd (query_folders server id4s st)
  | QueryFoldersAll => snd (query_folders_all server st)
  | QueryFolderByTitle title => snd (query_folder_by_title server title st)
  | QueryFolderSubtrees folder_id => snd (query_folder_subtrees server folder_id st)
  | QueryFolderSubtreesByTitle title => snd (query_folder_subtrees_by_title server title st)
  | QueryGroup group_id => snd (query_group server group_id st)
  | QueryGroupsAll => snd (query_groups_all server st)
  | QueryTasks id4s => snd (query_tasks server id4s st)
  | QueryTasksAll => snd (query_tasks_all server st)
  | QueryTasksInFolder folder_id => snd (query_tasks_in_folder server folder_id st)
  | QueryUser user_id => snd (query_user server user_id st)
  | QueryWorkflows => snd (query_workflows server st)
  | QueryTimelogs location tracked_date =>
      snd (query_timelogs server location tracked_date st)
  end.

(** A client constructed with [Wrike(base_url, token, ssl_verify)] and
    then used for a sequence of calls. *)
Definition constructed (base token : string) (ssl : bool) : state :=
  {| self := init base token ssl; log := [] |}.

Definition session (server : list request -> request -> result value)
    (calls : list call) (st : state) : state :=
  fold_left (fun st c => perform server c st) calls st.

(** How far the loops of [custom_statuses] get: the exception that
    stopped them, if any, and the table they leave. *)
Fixpoint statuses_progress (items : list value) (table : value) : option exn * value :=
  match items with
  | [] => (None, table)
  | custom_status :: rest =>
      match getitem custom_status (VStr "id") with
      | inl e => (Some e, table)
      | inr k =>
          match setitem table k custom_status with
          | inl e => (Some e, table)
          | inr table' => statuses_progress rest table'
          end
      end
  end.

Fixpoint workflows_progress (records : list value) (table : value) : option exn * value :=
  match records with
  | [] => (None, table)
  | workflow :: rest =>
      match statuses_of workflow with
      | inl e => (Some e, table)
      | inr items =>
          match statuses_progress items table with
          | (Some e, table') => (Some e, table')
          | (None, table') => workflows_progress rest table'
          end
      end
  end.

(** What a loop returns when it stopped, or did not. *)
Definition outcome (stopped : option exn) : result unit :=
  match stopped with
  | Some e => raise e
  | None => ok tt
  end.

(** All custom statuses of the workflow records, in the order the
    loops meet them. *)
Fixpoint flatten (records : list value) : result (list value) :=
  match records with
  | [] => ok []
  | workflow :: rest =>
      rbind (statuses_of workflow) (fun items =>
      rbind (flatten rest) (fun more => ok (items ++ more)%list))
  end.

Definition has_id (custom_status id : value) : bool :=
  match getitem custom_status (VStr "id") with
  | inr k => key_eqb k id
  | inl _ => false
  end.

(** The last status of the list whose id is [id]. *)
Fixpoint last_with_id (statuses : list value) (id : value) : option value :=
  match statuses with
  | [] => None
  | custom_status :: rest =>
      match last_with_id rest id with
      | Some later => Some later
      | None => if has_id custom_status id then Some custom_status else None
      end
  end.

(** What identifies a key: [True] and [1] share it. *)
Inductive key : Type :=
| KNone
| KInt (z : Z)
| KStr (s : string).

Definition key_of (v : value) : option key :=
  match v with
  | VNone => Some KNone
  | VStr s => Some (KStr s)
  | VInt z => Some (KInt z)
  | VBool true => Some (KInt 1)
  | VBool false => Some (KInt 0)
  | _ => None
  end.

(** A character [repr] copies unchanged inside single quotes. *)
Definition plain_char (c : ascii) : bool :=
  let n := N_of_ascii c in
  (32 <=? n)%N && (n <? 127)%N && negb (Ascii.eqb c squote)
  && negb (Ascii.eqb c backslash).

Fixpoint plain (s : string) : bool :=
  match s with
  | EmptyString => true
  | String c r => plain_char c && plain r
  end.

Definition quoted (s : string) : string := "'" ++ s ++ "'".

(** No folder of the items has the title, and each has one. *)
Definition none_titled (title : string) (items : list (value * value)) : Prop :=
  forall kf, In kf items ->
    exists found, getitem (snd kf) (VStr "title") = ok found /\ eq_str found title = false.

(** ** Readings of the specification *)

(** The project-status rule with "present" read as "not [None]":
    a folder whose status is ["Custom"] and whose [customStatusId] is
    not [None] gets the name of the cached record under that id, and
    every other folder gets its own status. *)
Definition status_rule_as_stated : Prop :=
  forall (server : list request -> request -> result value) (folder : value) (st : state),
    (status_of folder = VStr "Custom" /\ custom_status_id_of folder <> VNone ->
     forall table st' record name,
       custom_statuses server st = (ok table, st') ->
       getitem table (custom_status_id_of folder) = ok record ->
       getitem record (VStr "name") = ok name ->
       fst (extract_project_status server folder st) = ok name) /\
    (~ (status_of folder = VStr "Custom" /\ custom_status_id_of folder <> VNone) ->
     fst (extract_project_status server folder st) = ok (status_of folder)).

(** The failure rule read as an equivalence: with the custom-status
    table at hand, a [KeyError] comes out exactly when the status is
    ["Custom"], the id is not [None] and the id is not a key of the
    table. *)
Definition key_missing_exactly_when : Prop :=
  forall (server : list request -> request -> result value) (folder : value)
         (st st' : state) (table : pydict),
    custom_statuses server st = (ok (VDict table), st') ->
    ((exists k, fst (extract_project_status server folder st) = raise (KeyError k)) <->
     (status_of folder = VStr "Custom" /\
      custom_status_id_of folder <> VNone /\
      dict_find table (custom_status_id_of folder) = None)).

(** ** Scenarios *)

Module Scenario.

Definition obj (fields : list (string * value)) : value :=
  VDict (map (fun kv => (VStr (fst kv), snd kv)) fields).

Definition envelope (records : list value) : value :=
  obj [("data", VList records)].

(** A client fresh from [__init__]. *)
Definition client : state :=
  {| self := init "https://www.wrike.com/api/v4/" "token" true; log := [] |}.

(** An account that has no contact when first asked and one afterwards. *)
Definition ann : value := obj [("id", VStr "KUAAAAAA"); ("firstName", VStr "Ann")].

Definition late_contact (history : list request) (rq : request) : result value :=
  match history with
  | [] => ok (envelope [])
  | _ => ok (envelope [ann])
  end.

(** One workflow with the custom status of the spec's second scenario. *)
Definition blocked : value := obj [("id", VStr "CS1"); ("name", VStr "Blocked")].

Definition workflow (statuses : list value) : value :=
  obj [("id", VStr "WF1"); ("name", VStr "Default"); ("customStatuses", VList statuses)].

Definition one_workflow (history : list request) (rq : request) : result value :=
  ok (envelope [workflow [blocked]]).

(** A workflow whose custom status has the empty string for id. *)
Definition unnamed_id : value := obj [("id", VStr ""); ("name", VStr "Blocked")].

Definition empty_id_workflow (history : list request) (rq : request) : result value :=
  ok (envelope [workflow [unnamed_id]]).

(** A workflow whose custom status has no name. *)
Definition nameless : value := obj [("id", VStr "CS1")].

Definition nameless_workflow (history : list request) (rq : request) : result value :=
  ok (envelope [workflow [nameless]]).

(** A service that cannot be reached. *)
Definition unreachable (history : list request) (rq : request) : result value :=
  raise (Raised "ConnectionError").

Definition project (fields : list (string * value)) : value :=
  obj [("project", obj fields)].

Definition active_folder : value := project [("status", VStr "Active")].

Definition custom_folder (id : string) : value :=
  project [("status", VStr "Custom"); ("customStatusId", VStr id)].

(** Two workflows that both define custom status [CS1]. *)
Definition renamed : value := obj [("id", VStr "CS1"); ("name", VStr "On hold")].

Definition second_workflow (statuses : list value) : value :=
  obj [("id", VStr "WF2"); ("name", VStr "Design"); ("customStatuses", VList statuses)].

Definition two_workflows (history : list request) (rq : request) : result value :=
  ok (envelope [workflow [blocked]; second_workflow [renamed]]).

(** A workflow list whose second record has no [customStatuses]. *)
Definition broken_workflow : value := obj [("id", VStr "WF2")].

Definition half_broken (history : list request) (rq : request) : result value :=
  ok (envelope [workflow [blocked]; broken_workflow]).

(** The service refusing a request with an error body. *)
Definition refused (history : list request) (rq : request) : result value :=
  ok (obj [("error", VStr "not_authorized")]).

(** Two folders. *)
Definition inbox : value := obj [("id", VStr "IEAAAAA1"); ("title", VStr "Inbox")].
Definition plans : value := obj [("id", VStr "IEAAAAA2"); ("title", VStr "Plans")].

Definition two_folders (history : list request) (rq : request) : result value :=
  ok (envelope [inbox; plans]).

(** A folder without a title ahead of the two. *)
Definition untitled : value := obj [("id", VStr "IEAAAAA0")].

Definition three_folders (history : list request) (rq : request) : result value :=
  ok (envelope [untitled; inbox; plans]).

End Scenario.

(** ** Running the methods *)

Section Running.

Variable server : list request -> request -> result value.

Lemma get_run (path : string) (ps : option (list (string * string))) (st : state) :
  get server path ps st =
  (server (log st) (get_request (self st) path ps),
   sent st (get_request (self st) path ps)).
Proof. reflexivity. Qed.

Lemma bind_run {A B} (c : M A) (f : A -> M B) (st : state) :
  bind c f st =
  match c st with
  | (inl e, st') => (inl e, st')
  | (inr a, st') => f a st'
  end.
Proof. reflexivity. Qed.

Ltac run_accessor :=
  unfold accessor, contacts, custom_fields, folders, workflows, custom_statuses,
    query_contacts_all, query_custom_fields_all, query_folders_all, query_workflows,
    bind, attr, lift, ret, update; cbn [slot]; cbv beta iota.

(** A populated, non-empty cache is served as it is. *)
Lemma accessor_hit (k : kind) (st : state) :
  truthy (slot k (self st)) = true ->
  accessor server k st = (ok (slot k (self st)), st).
Proof.
  intros Hit. destruct k; run_accessor; cbn [slot] in Hit; rewrite Hit; reflexivity.
Qed.

(** A miss of a fetching accessor sends one request and stores the
    dictionary made from the response, or stores nothing if any step
    raises. *)
Lemma fetch_miss (k : kind) (st : state) :
  fetched k = true ->
  truthy (slot k (self st)) = false ->
  accessor server k st =
  match populate (server (log st) (fetch_request (self st) k)) with
  | inl e => (inl e, sent st (fetch_request (self st) k))
  | inr d => (ok d, stored k d (sent st (fetch_request (self st) k)))
  end.
Proof.
  intros Hk Miss.
  destruct k; try discriminate Hk; run_accessor; cbn [slot] in Miss;
    rewrite Miss; cbn [negb]; rewrite get_run; unfold populate, fetch_request;
    cbn [endpoint];
    (destruct (server _ _) as [e | body]; cbn [rbind]; [reflexivity |]);
    (destruct (getitem body (VStr "data")) as [e | data]; cbn [rbind]; [reflexivity |]);
    (destruct (convert_list_to_dict data) as [e | d]; reflexivity).
Qed.

Lemma same_but_statuses_refl (st : state) : same_but_statuses st st.
Proof. repeat split. Qed.

Lemma same_but_statuses_trans (a b c : state) :
  same_but_statuses a b -> same_but_statuses b c -> same_but_statuses a c.
Proof.
  unfold same_but_statuses.
  intros (L1 & B1 & S1 & H1 & C1 & F1 & O1 & W1) (L2 & B2 & S2 & H2 & C2 & F2 & O2 & W2).
  repeat split; congruence.
Qed.

Lemma same_but_statuses_stored (st : state) (table : value) :
  same_but_statuses st (stored CustomStatuses table st).
Proof. repeat split. Qed.

(** The inner loop of [custom_statuses] computes [add_statuses] on the
    table it finds, touching nothing else. *)
Lemma for_each_statuses (items : list value) (st : state) :
  exists st',
    for_each items add_custom_status st =
      (rbind (add_statuses items (_custom_statuses (self st))) (fun _ => ok tt), st') /\
    same_but_statuses st st' /\
    (forall table, add_statuses items (_custom_statuses (self st)) = ok table ->
                   _custom_statuses (self st') = table).
Proof.
  revert st. induction items as [| x rest IH]; intros st.
  - exists st. cbn. repeat split. intros table [= <-]. reflexivity.
  - cbn [for_each add_statuses]. unfold bind at 1.
    unfold add_custom_status, bind, lift, attr, update. cbv beta iota.
    destruct (getitem x (VStr "id")) as [e | k]; cbn [rbind].
    + exists st. repeat split. discriminate.
    + destruct (setitem (_custom_statuses (self st)) k x) as [e | table']; cbn [rbind].
      * exists st. repeat split. discriminate.
      * destruct (IH (stored CustomStatuses table' st)) as (st' & Run & Same & Final).
        exists st'. split; [exact Run |]. split; [| exact Final].
        eapply same_but_statuses_trans; [apply same_but_statuses_stored | exact Same].
Qed.

(** The outer loop computes [add_workflows]. *)
Lemma for_each_workflows (records : list value) (st : state) :
  exists st',
    for_each records add_workflow st =
      (rbind (add_workflows records (_custom_statuses (self st))) (fun _ => ok tt), st') /\
    same_but_statuses st st' /\
    (forall table, add_workflows records (_custom_statuses (self st)) = ok table ->
                   _custom_statuses (self st') = table).
Proof.
  revert st. induction records as [| wf rest IH]; intros st.
  - exists st. cbn. repeat split. intros table [= <-]. reflexivity.
  - cbn [for_each add_workflows]. unfold bind at 1.
    unfold add_workflow, statuses_of, bind, lift. cbv beta iota.
    destruct (getitem wf (VStr "customStatuses")) as [e | statuses]; cbn [rbind].
    + exists st. repeat split. discriminate.
    + destruct (iter statuses) as [e | items]; cbn [rbind].
      * exists st. repeat split. discriminate.
      * destruct (for_each_statuses items st) as (st1 & Run1 & Same1 & Final1).
        rewrite Run1.
        destruct (add_statuses items (_custom_statuses (self st))) as [e | table1];
          cbn [rbind].
        -- exists st1. repeat split; try apply Same1. discriminate.
        -- cbv iota.
           destruct (IH st1) as (st' & Run & Same & Final).
           rewrite (Final1 table1 eq_refl) in Run, Final.
           exists st'. split; [exact Run |]. split; [| exact Final].
           eapply same_but_statuses_trans; eassumption.
Qed.

(** [workflows] leaves the custom-status cache alone. *)
Lemma workflows_keeps_statuses (st : state) :
  _custom_statuses (self (snd (workflows server st))) = _custom_statuses (self st).
Proof.
  change (workflows server st) with (accessor server Workflows st).
  destruct (truthy (_workflows (self st))) eqn:T.
  - rewrite (accessor_hit Workflows st T). reflexivity.
  - rewrite (fetch_miss Workflows st eq_refl T).
    destruct (populate _); reflexivity.
Qed.

(** A miss of [custom_statuses]: the table is emptied, the workflows
    are read through their own accessor, and the result is derived from
    them alone. *)
Lemma custom_statuses_miss (st : state) :
  truthy (_custom_statuses (self st)) = false ->
  exists st',
    custom_statuses server st =
      (rbind (fst (workflows server (stored CustomStatuses (VDict []) st)))
             derive_statuses, st') /\
    same_but_statuses (snd (workflows server (stored CustomStatuses (VDict []) st))) st'.
Proof.
  intros Miss. unfold custom_statuses.
  rewrite bind_run. unfold attr at 1. cbv beta iota. rewrite Miss. cbn [negb].
  rewrite bind_run. rewrite bind_run. unfold update at 1. cbv beta iota.
  change {| self := with_custom_statuses (VDict []) (self st); log := log st |}
    with (stored CustomStatuses (VDict []) st).
  rewrite bind_run.
  pose proof (workflows_keeps_statuses (stored CustomStatuses (VDict []) st)) as Keep.
  change (_custom_statuses (self (stored CustomStatuses (VDict []) st)))
    with (VDict []) in Keep.
  destruct (workflows server (stored CustomStatuses (VDict []) st)) as [[e | wfs] st1];
    cbn [fst snd rbind] in *.
  - exists st1. split; [reflexivity | apply same_but_statuses_refl].
  - rewrite bind_run. unfold lift at 1, derive_statuses.
    destruct (values_of wfs) as [e | records]; cbn [rbind].
    + exists st1. split; [reflexivity | apply same_but_statuses_refl].
    + destruct (for_each_workflows records st1) as (st' & Run & Same & Final).
      rewrite Keep in Run, Final. rewrite Run.
      destruct (add_workflows records (VDict [])) as [e | table]; cbn [rbind].
      * exists st'. split; [reflexivity | exact Same].
      * unfold attr. rewrite (Final table eq_refl).
        exists st'. split; [reflexivity | exact Same].
Qed.

End Running.

(** ** Dictionaries keyed by id *)





Lemma dict_find_in (d : pydict) (id v : value) :
  dict_find d id = Some v -> exists k, In (k, v) d /\ key_eqb k id = true.
Proof.
  induction d as [| [k' v'] r IH]; cbn [dict_find]; [discriminate |].
  destruct (key_eqb k' id) eqn:E.
  - intros [= <-]. exists k'. split; [now left | exact E].
  - intros H. destruct (IH H) as (k & Hin & Hk). exists k. split; [now right | exact Hk].
Qed.




(** ** String renderings *)

Lemma repr_list (l : list value) :
  repr (VList l) = "[" ++ join ", " (map repr l) ++ "]".
Proof. reflexivity. Qed.

Lemma map_repr_strings (l : list string) :
  map repr (map VStr l) = map repr_str l.
Proof. induction l as [| s r IH]; cbn; [reflexivity | now rewrite IH]. Qed.

(** [str] of a list of strings: the [repr] of each, comma-separated,
    in square brackets. *)
Lemma str_string_list (l : list string) :
  str (VList (map VStr l)) = "[" ++ join ", " (map repr_str l) ++ "]".
Proof.
  change (str (VList (map VStr l))) with (repr (VList (map VStr l))).
  now rewrite repr_list, map_repr_strings.
Qed.

Example repr_str_plain : repr_str "12345" = "'12345'".
Proof. reflexivity. Qed.

Example repr_str_backslash : repr_str "a\b" = "'a\\b'".
Proof. reflexivity. Qed.

Example repr_str_single_quote :
  repr_str "it's" = String dquote ("it's" ++ String dquote "").
Proof. reflexivity. Qed.

Lemma append_assoc (a b c : string) : (a ++ b) ++ c = a ++ b ++ c.
Proof. induction a as [| x a IH]; cbn; [reflexivity | now rewrite IH]. Qed.

(** [str] of the two filter dictionaries of [query_timelogs]. *)
Lemma str_equal_filter (d : string) :
  str (VDict [(VStr "equal", VStr d)]) = "{'equal': " ++ repr_str d ++ "}".
Proof. reflexivity. Qed.

Lemma str_range_filter (d0 d1 : string) :
  str (VDict [(VStr "start", VStr d0); (VStr "end", VStr d1)]) =
  "{'start': " ++ repr_str d0 ++ ", 'end': " ++ repr_str d1 ++ "}".
Proof.
  cbn [str repr map join].
  change (repr_str "start") with "'start'". change (repr_str "end") with "'end'".
  cbn [append]. do 10 f_equal. now rewrite !append_assoc.
Qed.

Lemma repr_int_not_custom (z : Z) : repr_int z <> "Custom".
Proof.
  unfold repr_int. destruct z as [| p | p]; cbn; [discriminate | |].
  - destruct (Pos.to_uint p); cbn; discriminate.
  - discriminate.
Qed.

(** Only the string ["Custom"] has ["Custom"] for [str]. *)
Lemma str_is_custom (v : value) :
  String.eqb (str v) "Custom" = true <-> v = VStr "Custom".
Proof.
  split.
  - intros H. apply String.eqb_eq in H.
    destruct v as [| [|] | z | s | l | d]; cbn in H; try discriminate H.
    + now apply repr_int_not_custom in H.
    + now subst.
  - intros ->. reflexivity.
Qed.

(** ** The id lookup *)

(** C7: [convert_to_id4s] sends exactly one GET, to [ids/], whose
    [type] parameter is the protocol string of the tag and whose [ids]
    parameter is [str] of the id list (each id in [repr] form,
    comma-separated, in brackets); the tags map to the seven fixed
    strings; for [["12345"]] and [FOLDER] the parameters are
    [ApiV2Folder] and ['12345'] in brackets. *)
Theorem convert_to_id4s_request
    (server : list request -> request -> result value)
    (id2s : list string) (idType : IdTypes) (st : state) :
  let rq := {| meth := GET;
               url := base_url (self st) ++ "ids/";
               headers := __headers (self st);
               params := Some [("type", IdTypes_value idType);
                               ("ids", "[" ++ join ", " (map repr_str id2s) ++ "]")];
               json := None;
               verify := ssl_verify (self st) |} in
  convert_to_id4s server id2s idType st =
    (server (log st) rq, {| self := self st; log := (log st ++ [rq])%list |}) /\
  map IdTypes_value [ACCOUNT; USER; FOLDER; TASK; COMMENT; ATTACHMENT; TIMELOG] =
    ["ApiV2Account"; "ApiV2User"; "ApiV2Folder"; "ApiV2Task"; "ApiV2Comment";
     "ApiV2Attachment"; "ApiV2Timelog"] /\
  (let example := {| meth := GET;
                     url := base_url (self st) ++ "ids/";
                     headers := __headers (self st);
                     params := Some [("type", "ApiV2Folder"); ("ids", "['12345']")];
                     json := None;
                     verify := ssl_verify (self st) |} in
   log (snd (convert_to_id4s server ["12345"] FOLDER st)) = (log st ++ [example])%list).
Proof.
  cbv zeta. split; [| split; reflexivity].
  unfold convert_to_id4s. cbv zeta. rewrite get_run, str_string_list. reflexivity.
Qed.

(** ** The timelog query *)

Lemma length_not (n : Z) (l : list string) :
  (3 <= List.length l)%nat -> 0 <= n < 3 -> (Z.of_nat (List.length l) =? n) = false.
Proof. intros Hl Hn. apply Z.eqb_neq. lia. Qed.

(** Neither length test of [query_timelogs] passes for three or more
    dates, so the parameters stay as they were built. *)
Lemma query_timelogs_plain
    (server : list request -> request -> result value)
    (location : string) (tracked_date : list string) (st : state) :
  (3 <= List.length tracked_date)%nat ->
  query_timelogs server location tracked_date st =
  (server (log st)
     (get_request (self st) (location ++ "/timelogs") (Some [("descendants", "true")])),
   sent st
     (get_request (self st) (location ++ "/timelogs") (Some [("descendants", "true")]))).
Proof.
  intros Long. unfold query_timelogs. cbv zeta.
  rewrite (length_not 1 tracked_date Long), (length_not 2 tracked_date Long) by lia.
  rewrite bind_run.
  destruct tracked_date as [| d r]; [cbn in Long; lia |].
  cbn [map truthy]. unfold ret. cbv iota. apply get_run.
Qed.

(** C10: with three or more dates the query goes out with
    [descendants=true] as its only parameter, and nothing is raised by
    the client. *)
Theorem query_timelogs_drops_long_filter
    (server : list request -> request -> result value)
    (location : string) (tracked_date : list string) (st : state) :
  (3 <= List.length tracked_date)%nat ->
  let rq := get_request (self st) (location ++ "/timelogs")
              (Some [("descendants", "true")]) in
  params rq = Some [("descendants", "true")] /\
  query_timelogs server location tracked_date st = (server (log st) rq, sent st rq).
Proof.
  intros Long. cbv zeta. split; [reflexivity |]. now apply query_timelogs_plain.
Qed.

Lemma query_timelogs_drops_long_filter_witness :
  (3 <= List.length ["2024-01-01"; "2024-01-15"; "2024-01-31"])%nat /\
  query_timelogs Scenario.unreachable "tasks/T1"
    ["2024-01-01"; "2024-01-15"; "2024-01-31"] Scenario.client =
  (raise (Raised "ConnectionError"),
   sent Scenario.client
     (get_request (self Scenario.client) "tasks/T1/timelogs"
        (Some [("descendants", "true")]))).
Proof.
  split; [cbn; lia |].
  apply (query_timelogs_drops_long_filter Scenario.unreachable "tasks/T1"
           ["2024-01-01"; "2024-01-15"; "2024-01-31"] Scenario.client).
  cbn; lia.
Defined.

(** C8: every timelog query is one GET to [<location>/timelogs] that
    carries [descendants=true]; one date adds the filter
    [{'equal': date}], two dates add [{'start': first, 'end': second}],
    the dates in [repr] form; the query of the spec's scenario carries
    both of its dates. *)
Theorem query_timelogs_request
    (server : list request -> request -> result value)
    (location : string) (st : state) :
  (forall tracked_date, exists ps,
      let rq := {| meth := GET;
                   url := base_url (self st) ++ location ++ "/timelogs";
                   headers := __headers (self st);
                   params := Some ps;
                   json := None;
                   verify := ssl_verify (self st) |} in
      query_timelogs server location tracked_date st =
        (server (log st) rq, {| self := self st; log := (log st ++ [rq])%list |}) /\
      In ("descendants", "true") ps) /\
  (forall d,
      let rq := {| meth := GET;
                   url := base_url (self st) ++ location ++ "/timelogs";
                   headers := __headers (self st);
                   params := Some [("descendants", "true");
                                   ("trackedDate", "{'equal': " ++ repr_str d ++ "}")];
                   json := None;
                   verify := ssl_verify (self st) |} in
      query_timelogs server location [d] st =
        (server (log st) rq, {| self := self st; log := (log st ++ [rq])%list |})) /\
  (forall d0 d1,
      let rq := {| meth := GET;
                   url := base_url (self st) ++ location ++ "/timelogs";
                   headers := __headers (self st);
                   params := Some [("descendants", "true");
                                   ("trackedDate",
                                    "{'start': " ++ repr_str d0 ++
                                    ", 'end': " ++ repr_str d1 ++ "}")];
                   json := None;
                   verify := ssl_verify (self st) |} in
      query_timelogs server location [d0; d1] st =
        (server (log st) rq, {| self := self st; log := (log st ++ [rq])%list |})) /\
  (let rq := {| meth := GET;
                url := base_url (self st) ++ "tasks/T1/timelogs";
                headers := __headers (self st);
                params := Some [("descendants", "true");
                                ("trackedDate",
                                 "{'start': '2024-01-01', 'end': '2024-01-31'}")];
                json := None;
                verify := ssl_verify (self st) |} in
   log (snd (query_timelogs server "tasks/T1" ["2024-01-01"; "2024-01-31"] st)) =
     (log st ++ [rq])%list).
Proof.
  assert (One : forall d,
      let rq := {| meth := GET;
                   url := base_url (self st) ++ location ++ "/timelogs";
                   headers := __headers (self st);
                   params := Some [("descendants", "true");
                                   ("trackedDate", "{'equal': " ++ repr_str d ++ "}")];
                   json := None;
                   verify := ssl_verify (self st) |} in
      query_timelogs server location [d] st =
        (server (log st) rq, {| self := self st; log := (log st ++ [rq])%list |})).
  { intros d. cbv zeta. rewrite <- str_equal_filter. reflexivity. }
  assert (Two : forall d0 d1,
      let rq := {| meth := GET;
                   url := base_url (self st) ++ location ++ "/timelogs";
                   headers := __headers (self st);
                   params := Some [("descendants", "true");
                                   ("trackedDate",
                                    "{'start': " ++ repr_str d0 ++
                                    ", 'end': " ++ repr_str d1 ++ "}")];
                   json := None;
                   verify := ssl_verify (self st) |} in
      query_timelogs server location [d0; d1] st =
        (server (log st) rq, {| self := self st; log := (log st ++ [rq])%list |})).
  { intros d0 d1. cbv zeta. rewrite <- str_range_filter. reflexivity. }
  split; [| split; [exact One | split; [exact Two | reflexivity]]].
  intros [| d0 [| d1 [| d2 r]]].
  - exists [("descendants", "true")]. split; [reflexivity | now left].
  - eexists. split; [apply One | now left].
  - eexists. split; [apply Two | now left].
  - exists [("descendants", "true")]. split; [| now left].
    exact (query_timelogs_plain server location (d0 :: d1 :: d2 :: r) st
             ltac:(cbn; lia)).
Qed.

(** ** The project status extractor *)

Lemma getitem_on_non_dict (x : value) (name : string) :
  (forall d, x <> VDict d) -> exists e, getitem x (VStr name) = raise e.
Proof.
  intros Not. destruct x as [| b | z | s | l | d]; cbn; eauto.
  now contradiction (Not d).
Qed.

(** C5: when [project.<key>] is missing at any level (the folder or
    its [project] is not a dictionary, or lacks the key) the traversal
    inside the [try] raises and the function returns [None]; and
    [extract_project_status] on the empty folder returns [None]
    without raising and without sending anything. *)
Theorem project_value_absent :
  (forall key folder,
      missing key folder ->
      (exists e, project_value key folder = raise e) /\
      extract_project_value_from_folder key folder = VNone) /\
  (forall (server : list request -> request -> result value) (st : state),
      extract_project_status server (VDict []) st = (ok VNone, st)).
Proof.
  split; [| reflexivity].
  intros key folder Miss.
  assert (Raises : exists e, project_value key folder = raise e).
  { unfold project_value.
    destruct Miss as [folder Not | d None | d project Found Not | d p Found None].
    - destruct (getitem_on_non_dict folder "project" Not) as (e & ->). now exists e.
    - cbn. rewrite None. now eexists.
    - cbn. rewrite Found. cbn [rbind]. apply getitem_on_non_dict, Not.
    - cbn. rewrite Found. cbn. rewrite None. now eexists. }
  split; [exact Raises |].
  unfold extract_project_value_from_folder. now destruct Raises as (e & ->).
Qed.

Lemma project_value_absent_witness :
  missing "status" (Scenario.obj [("title", VStr "Inbox")]) /\
  extract_project_value_from_folder "status" (Scenario.obj [("title", VStr "Inbox")]) = VNone.
Proof.
  split.
  - apply no_project. reflexivity.
  - apply (proj1 project_value_absent "status" (Scenario.obj [("title", VStr "Inbox")])).
    apply no_project. reflexivity.
Defined.

(** ** The fetching accessors *)

(** C9: when the fetch of a contacts, custom-fields, folders or
    workflows miss raises, the accessor raises the same exception, the
    object is left as it was, and the next access sends the request
    again. *)
Theorem fetch_failure_leaves_cache
    (server : list request -> request -> result value)
    (k : kind) (st : state) (e : exn) :
  fetched k = true ->
  truthy (slot k (self st)) = false ->
  server (log st) (fetch_request (self st) k) = raise e ->
  let rq := fetch_request (self st) k in
  accessor server k st = (raise e, sent st rq) /\
  self (sent st rq) = self st /\
  log (snd (accessor server k (sent st rq))) = (log st ++ [rq; rq])%list.
Proof.
  intros Hk Miss Fails. cbv zeta.
  split; [| split; [reflexivity |]].
  - rewrite (fetch_miss server k st Hk Miss), Fails. reflexivity.
  - rewrite (fetch_miss server k (sent st (fetch_request (self st) k)) Hk Miss).
    destruct (populate _); cbn [snd stored sent log]; now rewrite <- app_assoc.
Qed.

Lemma fetch_failure_leaves_cache_witness :
  contacts Scenario.unreachable Scenario.client =
    (raise (Raised "ConnectionError"),
     sent Scenario.client (fetch_request (self Scenario.client) Contacts)) /\
  _contacts (self (snd (contacts Scenario.unreachable Scenario.client))) = VNone.
Proof.
  pose proof (fetch_failure_leaves_cache Scenario.unreachable Contacts Scenario.client
                (Raised "ConnectionError") eq_refl eq_refl eq_refl) as [Run _].
  cbn [accessor] in Run. split; [exact Run |]. rewrite Run. reflexivity.
Defined.

(** Whatever an accessor returns is what its cache then holds. *)
Lemma accessor_result_stored
    (server : list request -> request -> result value)
    (k : kind) (st st1 : state) (d : value) :
  accessor server k st = (ok d, st1) -> slot k (self st1) = d.
Proof.
  destruct (fetched k) eqn:Hk.
  - destruct (truthy (slot k (self st))) eqn:T.
    + rewrite (accessor_hit server k st T). now intros [= <- <-].
    + rewrite (fetch_miss server k st Hk T).
      destruct (populate _) as [e | d']; [discriminate |].
      intros [= <- <-]. now destruct k.
  - destruct k; try discriminate Hk. cbn [accessor slot].
    unfold custom_statuses. rewrite bind_run. unfold attr at 1. cbv beta iota.
    rewrite bind_run.
    match goal with
    | |- context [match ?c st with _ => _ end] => destruct (c st) as [[e | u] st']
    end; [discriminate |].
    unfold attr. now intros [= <- <-].
Qed.

(** A second access finds a non-empty dictionary in the cache and
    returns it without sending anything. *)
Lemma accessor_twice
    (server : list request -> request -> result value)
    (k : kind) (st st1 : state) (d : value) :
  accessor server k st = (ok d, st1) ->
  truthy d = true ->
  accessor server k st1 = (ok d, st1).
Proof.
  intros Run Full. pose proof (accessor_result_stored server k st st1 d Run) as Stored.
  rewrite accessor_hit; rewrite Stored; auto.
Qed.

(** A second access after an empty population fetches again. *)
Lemma accessor_refetches_empty
    (server : list request -> request -> result value)
    (k : kind) (st st1 : state) (d : value) :
  fetched k = true ->
  accessor server k st = (ok d, st1) ->
  truthy d = false ->
  log (snd (accessor server k st1)) = (log st1 ++ [fetch_request (self st1) k])%list.
Proof.
  intros Hk Run Empty. pose proof (accessor_result_stored server k st st1 d Run) as Stored.
  rewrite (fetch_miss server k st1 Hk) by now rewrite Stored.
  destruct (populate _); reflexivity.
Qed.

(** C1: a client whose account has no contact at first.  The first
    access to [contacts] fetches and returns the empty dictionary; the
    second access, with no [reinitialize] in between, fetches again
    and returns a different dictionary. *)
Theorem contacts_empty_not_cached :
  let rq := fetch_request (self Scenario.client) Contacts in
  let first := contacts Scenario.late_contact Scenario.client in
  let second := contacts Scenario.late_contact (snd first) in
  fst first = ok (VDict []) /\
  log (snd first) = [rq] /\
  log (snd second) = [rq; rq] /\
  fst second = ok (VDict [(VStr "KUAAAAAA", Scenario.ann)]) /\
  fst second <> fst first.
Proof.
  cbv zeta. split; [reflexivity |]. split; [reflexivity |]. split; [reflexivity |].
  split; [reflexivity | discriminate].
Qed.

(** ** Reset *)

Lemma fresh_fetched (k : kind) (response : result value) :
  fetched k = true -> fresh k response = populate response.
Proof. now destruct k. Qed.

(** C2: [reinitialize] puts [None] in all five caches and sends
    nothing; the accessor called next, whichever it is, sends the
    fetch of its kind (the workflows fetch for custom statuses) and
    its result is made from that response alone. *)
Theorem reinitialize_forces_fetch
    (server : list request -> request -> result value) (st : state) (k : kind) :
  let st0 := snd (reinitialize st) in
  let rq := fetch_request (self st) k in
  fst (reinitialize st) = ok tt /\
  (forall k', slot k' (self st0) = VNone) /\
  log st0 = log st /\
  fst (accessor server k st0) = fresh k (server (log st) rq) /\
  log (snd (accessor server k st0)) = (log st ++ [rq])%list.
Proof.
  cbv zeta. split; [reflexivity |]. split; [now intros [] |]. split; [reflexivity |].
  set (st0 := snd (reinitialize st)).
  destruct (fetched k) eqn:Hk.
  - assert (Miss : truthy (slot k (self st0)) = false) by now destruct k.
    rewrite (fetch_miss server k st0 Hk Miss).
    change (fetch_request (self st0) k) with (fetch_request (self st) k).
    change (log st0) with (log st).
    rewrite (fresh_fetched k _ Hk).
    now destruct (populate _).
  - destruct k; try discriminate Hk. cbn [accessor fresh].
    destruct (custom_statuses_miss server st0 eq_refl) as (st' & Run & Same).
    rewrite Run. cbn [fst snd].
    change (workflows server (stored CustomStatuses (VDict []) st0))
      with (accessor server Workflows (stored CustomStatuses (VDict []) st0)) in *.
    rewrite (fetch_miss server Workflows (stored CustomStatuses (VDict []) st0)
               eq_refl eq_refl) in *.
    change (fetch_request (self (stored CustomStatuses (VDict []) st0)) Workflows)
      with (fetch_request (self st) CustomStatuses) in *.
    change (log (stored CustomStatuses (VDict []) st0)) with (log st) in *.
    destruct Same as [-> _].
    destruct (populate _); split; reflexivity.
Qed.

(** ** Custom statuses *)



(** ** Resolving the project status *)

Lemma resolves_iff (folder : value) :
  String.eqb (str (status_of folder)) "Custom" && truthy (custom_status_id_of folder) = true <->
  status_of folder = VStr "Custom" /\ truthy (custom_status_id_of folder) = true.
Proof. rewrite andb_true_iff, str_is_custom. reflexivity. Qed.

Lemma extract_project_status_plain
    (server : list request -> request -> result value) (folder : value) (st : state) :
  ~ (status_of folder = VStr "Custom" /\ truthy (custom_status_id_of folder) = true) ->
  extract_project_status server folder st = (ok (status_of folder), st).
Proof.
  intros Plain. rewrite <- resolves_iff in Plain.
  unfold extract_project_status. cbv zeta.
  fold (status_of folder). fold (custom_status_id_of folder).
  destruct (_ && _); [now contradiction Plain | reflexivity].
Qed.

Lemma extract_project_status_resolving
    (server : list request -> request -> result value) (folder : value) (st : state) :
  status_of folder = VStr "Custom" ->
  truthy (custom_status_id_of folder) = true ->
  extract_project_status server folder st =
  (table <- custom_statuses server ;;
   record <- lift (getitem table (custom_status_id_of folder)) ;;
   lift (getitem record (VStr "name"))) st.
Proof.
  intros Custom Present.
  unfold extract_project_status. cbv zeta.
  fold (status_of folder). fold (custom_status_id_of folder).
  now rewrite (proj2 (resolves_iff folder) (conj Custom Present)).
Qed.

(** C4, counterexample: the status is ["Custom"], the custom status id
    is the empty string, and the table has a record named ["Blocked"]
    under that id; the extractor returns ["Custom"]. *)
Lemma status_rule_as_stated_fails : ~ status_rule_as_stated.
Proof.
  intros Rule.
  destruct (Rule Scenario.empty_id_workflow (Scenario.custom_folder "") Scenario.client)
    as [Resolve _].
  assert (Present : status_of (Scenario.custom_folder "") = VStr "Custom" /\
                    custom_status_id_of (Scenario.custom_folder "") <> VNone)
    by (split; [reflexivity | discriminate]).
  specialize (Resolve Present _ _ Scenario.unnamed_id (VStr "Blocked")
                eq_refl eq_refl eq_refl).
  discriminate Resolve.
Qed.

(** C4, amended: when the status is the string ["Custom"] and the
    custom status id is truthy (neither missing nor [None], empty,
    zero or false), the extractor returns the [name] of the record the
    custom-status table holds under that id, provided the table, the
    record and its name are found; in every other case it returns the
    folder's own status and touches nothing. *)
Theorem extract_project_status_rule
    (server : list request -> request -> result value) (folder : value) (st : state) :
  (status_of folder = VStr "Custom" /\ truthy (custom_status_id_of folder) = true ->
   forall table st' record name,
     custom_statuses server st = (ok table, st') ->
     getitem table (custom_status_id_of folder) = ok record ->
     getitem record (VStr "name") = ok name ->
     extract_project_status server folder st = (ok name, st')) /\
  (~ (status_of folder = VStr "Custom" /\ truthy (custom_status_id_of folder) = true) ->
   extract_project_status server folder st = (ok (status_of folder), st)).
Proof.
  split; [| apply extract_project_status_plain].
  intros [Custom Present] table st' record name Table Record Name.
  rewrite (extract_project_status_resolving server folder st Custom Present).
  rewrite bind_run, Table, bind_run. unfold lift. now rewrite Record, Name.
Qed.

Lemma extract_project_status_rule_witness :
  extract_project_status Scenario.one_workflow (Scenario.custom_folder "CS1") Scenario.client =
    (ok (VStr "Blocked"),
     snd (custom_statuses Scenario.one_workflow Scenario.client)) /\
  extract_project_status Scenario.one_workflow Scenario.active_folder Scenario.client =
    (ok (VStr "Active"), Scenario.client).
Proof.
  destruct (extract_project_status_rule Scenario.one_workflow
              (Scenario.custom_folder "CS1") Scenario.client) as [Resolve _].
  destruct (extract_project_status_rule Scenario.one_workflow
              Scenario.active_folder Scenario.client) as [_ Plain].
  split.
  - apply (Resolve (conj eq_refl eq_refl) (VDict [(VStr "CS1", Scenario.blocked)]) _
             Scenario.blocked (VStr "Blocked")); reflexivity.
  - apply Plain. intros [Custom _]. discriminate Custom.
Defined.

(** C6, counterexample: the custom status id is a key of the table,
    but its record has no [name]; the extractor raises a [KeyError]
    all the same. *)
Lemma key_missing_exactly_when_fails : ~ key_missing_exactly_when.
Proof.
  intros Exactly.
  destruct (Exactly Scenario.nameless_workflow (Scenario.custom_folder "CS1")
              Scenario.client _ _ eq_refl) as [OnlyIf _].
  destruct OnlyIf as (_ & _ & Absent).
  - exists (VStr "name"). reflexivity.
  - discriminate Absent.
Qed.

(** C6, amended: when the status is ["Custom"], the custom status id
    is truthy and hashable, and the custom-status table is obtained
    and has no such key, the extractor raises [KeyError] of that id
    and returns nothing in its place; and the extractor raises nothing
    at all unless the status is ["Custom"] and the id is truthy. *)
Theorem extract_project_status_key_missing
    (server : list request -> request -> result value) (folder : value) (st : state) :
  (forall table st',
      status_of folder = VStr "Custom" ->
      truthy (custom_status_id_of folder) = true ->
      hashable (custom_status_id_of folder) = true ->
      custom_statuses server st = (ok (VDict table), st') ->
      dict_find table (custom_status_id_of folder) = None ->
      extract_project_status server folder st =
        (raise (KeyError (custom_status_id_of folder)), st')) /\
  (forall e,
      fst (extract_project_status server folder st) = raise e ->
      status_of folder = VStr "Custom" /\ truthy (custom_status_id_of folder) = true).
Proof.
  split.
  - intros table st' Custom Present Hash Table Absent.
    rewrite (extract_project_status_resolving server folder st Custom Present).
    rewrite bind_run, Table, bind_run. unfold lift. cbn [getitem]. unfold dict_getitem.
    now rewrite Hash, Absent.
  - intros e Raises.
    destruct (String.eqb (str (status_of folder)) "Custom"
              && truthy (custom_status_id_of folder)) eqn:R.
    + now apply resolves_iff.
    + rewrite extract_project_status_plain in Raises; [discriminate Raises |].
      rewrite <- resolves_iff, R. discriminate.
Qed.

Lemma extract_project_status_key_missing_witness :
  extract_project_status Scenario.one_workflow (Scenario.custom_folder "CS9") Scenario.client =
    (raise (KeyError (VStr "CS9")),
     snd (custom_statuses Scenario.one_workflow Scenario.client)).
Proof.
  destruct (extract_project_status_key_missing Scenario.one_workflow
              (Scenario.custom_folder "CS9") Scenario.client) as [Missing _].
  apply (Missing [(VStr "CS1", Scenario.blocked)]); reflexivity.
Defined.

(** ** What every method keeps *)

Section Respects.

Variable R : state -> state -> Prop.
Hypothesis R_refl : forall st, R st st.
Hypothesis R_trans : forall a b c, R a b -> R b c -> R a c.

Lemma respects_ret {A} (a : A) : respects R (ret a).
Proof. intros st. apply R_refl. Qed.

Lemma respects_lift {A} (r : result A) : respects R (lift r).
Proof. intros st. apply R_refl. Qed.

Lemma respects_attr {A} (field : t -> A) : respects R (attr field).
Proof. intros st. apply R_refl. Qed.

Lemma respects_bind {A B} (c : M A) (f : A -> M B) :
  respects R c -> (forall a, respects R (f a)) -> respects R (bind c f).
Proof.
  intros Hc Hf st. rewrite bind_run. specialize (Hc st).
  destruct (c st) as [[e | a] st']; cbn [snd] in *; [exact Hc |].
  eapply R_trans; [exact Hc | apply Hf].
Qed.

Lemma respects_if {A} (b : bool) (c1 c2 : M A) :
  respects R c1 -> respects R c2 -> respects R (if b then c1 else c2).
Proof. now destruct b. Qed.

Lemma respects_for_each {A} (l : list A) (body : A -> M unit) :
  (forall a, respects R (body a)) -> respects R (for_each l body).
Proof.
  intros Hbody. induction l as [| x r IH]; cbn [for_each].
  - apply respects_ret.
  - apply respects_bind; [apply Hbody | intros _; exact IH].
Qed.

End Respects.

Ltac respect Rrefl Rtrans atoms :=
  repeat (intros;
          first [ atoms
                | apply (respects_ret _ Rrefl)
                | apply (respects_lift _ Rrefl)
                | apply (respects_attr _ Rrefl)
                | apply (respects_for_each _ Rrefl Rtrans)
                | apply (respects_bind _ Rtrans)
                | apply respects_if ]).

Lemma same_base_refl (w : t) : same_base w w.
Proof. repeat split. Qed.

Lemma same_base_trans (a b c : t) : same_base a b -> same_base b c -> same_base a c.
Proof. unfold same_base. intros (U1 & S1 & H1) (U2 & S2 & H2). repeat split; congruence. Qed.

Lemma same_base_with_slot (k : kind) (v : value) (w : t) : same_base w (with_slot k v w).
Proof. destruct k; repeat split. Qed.

(** *** Caches an operation does not write *)

Lemma unchanged_outside_refl (touched : kind -> bool) (st : state) :
  unchanged_outside touched st st.
Proof. split; [apply same_base_refl | reflexivity]. Qed.

Lemma unchanged_outside_trans (touched : kind -> bool) (a b c : state) :
  unchanged_outside touched a b -> unchanged_outside touched b c ->
  unchanged_outside touched a c.
Proof.
  intros [B1 S1] [B2 S2]. split; [eapply same_base_trans; eassumption |].
  intros k Hk. now rewrite (S2 k Hk), (S1 k Hk).
Qed.

Lemma update_unchanged (touched : kind -> bool) (k : kind) (v : value) :
  touched k = true -> respects (unchanged_outside touched) (update (with_slot k v)).
Proof.
  intros Hk st. split; [apply same_base_with_slot |].
  intros k' Hk'. destruct k, k'; try reflexivity; congruence.
Qed.

Lemma get_unchanged (server : list request -> request -> result value)
    (touched : kind -> bool) (path : string) (ps : option (list (string * string))) :
  respects (unchanged_outside touched) (get server path ps).
Proof. intros st. rewrite get_run. split; [apply same_base_refl | reflexivity]. Qed.

Ltac frame touched :=
  respect (unchanged_outside_refl touched) (unchanged_outside_trans touched)
          ltac:(first [ apply get_unchanged
                      | apply (update_unchanged touched Contacts); reflexivity
                      | apply (update_unchanged touched CustomFields); reflexivity
                      | apply (update_unchanged touched CustomStatuses); reflexivity
                      | apply (update_unchanged touched Folders); reflexivity
                      | apply (update_unchanged touched Workflows); reflexivity ]).

(** X3: an accessor writes no cache but its own ([custom_statuses]
    also the workflow cache it reads through) and never changes the
    base URL, the headers or the certificate setting, whether it
    returns or raises. *)
Theorem accessor_writes_own_cache
    (server : list request -> request -> result value) (k : kind) (st : state) :
  unchanged_outside (writes k) st (snd (accessor server k st)).
Proof.
  revert st. change (respects (unchanged_outside (writes k)) (accessor server k)).
  destruct k; cbn [accessor];
    unfold contacts, custom_fields, custom_statuses, folders, workflows,
      add_workflow, add_custom_status,
      query_contacts_all, query_custom_fields_all, query_folders_all, query_workflows.
  - frame (writes Contacts).
  - frame (writes CustomFields).
  - frame (writes CustomStatuses).
  - frame (writes Folders).
  - frame (writes Workflows).
Qed.

(** *** Requests an operation sends *)

Lemma sent_by_same_base (w w' : t) (rq : request) :
  same_base w w' -> sent_by w' rq -> sent_by w rq.
Proof.
  intros (U & S & H) ((path & Hurl) & Hh & Hv).
  split; [exists path | split]; congruence.
Qed.

Lemma extends_refl (st : state) : extends st st.
Proof.
  split; [apply same_base_refl |]. exists []. split; [now rewrite app_nil_r | constructor].
Qed.

Lemma extends_trans (a b c : state) : extends a b -> extends b c -> extends a c.
Proof.
  intros [B1 (n1 & L1 & F1)] [B2 (n2 & L2 & F2)].
  split; [eapply same_base_trans; eassumption |].
  exists (n1 ++ n2)%list. split.
  - now rewrite L2, L1, app_assoc.
  - apply Forall_app. split; [exact F1 |].
    eapply Forall_impl; [| exact F2]. intros rq. now apply sent_by_same_base.
Qed.

Lemma update_extends (k : kind) (v : value) : respects extends (update (with_slot k v)).
Proof.
  intros st. split; [apply same_base_with_slot |].
  exists []. split; [cbn; now rewrite app_nil_r | constructor].
Qed.

Lemma get_extends (server : list request -> request -> result value)
    (path : string) (ps : option (list (string * string))) :
  respects extends (get server path ps).
Proof.
  intros st. rewrite get_run. split; [apply same_base_refl |].
  exists [get_request (self st) path ps]. split; [reflexivity |].
  constructor; [| constructor]. split; [now exists path | now split].
Qed.

Lemma post_extends (server : list request -> request -> result value)
    (path : string) (body : value) :
  respects extends (post server path body).
Proof.
  intros st. split; [apply same_base_refl |].
  exists [post_request (self st) path body]. split; [reflexivity |].
  constructor; [| constructor]. split; [now exists path | now split].
Qed.

Ltac traffic :=
  respect extends_refl extends_trans
          ltac:(first [ apply get_extends
                      | apply post_extends
                      | apply (update_extends Contacts)
                      | apply (update_extends CustomFields)
                      | apply (update_extends CustomStatuses)
                      | apply (update_extends Folders)
                      | apply (update_extends Workflows) ]).

Lemma perform_extends (server : list request -> request -> result value)
    (c : call) (st : state) :
  extends st (perform server c st).
Proof.
  revert st.
  destruct c as [| k | | | | | | | | | | | | | | | | | | | | | |];
    [.. | idtac]; cbn [perform];
    match goal with
    | |- forall st, extends st (snd (?m st)) => change (respects extends m)
    end;
    try destruct k; cbn [accessor];
    unfold reinitialize, contacts, custom_fields, custom_statuses, folders, workflows,
      add_workflow, add_custom_status, convert_to_id4s, extract_project_status,
      query_timelogs, query_folder_subtrees_by_title, query_folder_by_title,
      query_folder_subtrees, query_contacts, query_contact_me, query_custom_fields,
      query_folders, query_group, query_groups_all, query_tasks, query_tasks_all,
      query_tasks_in_folder, query_user, folders,
      query_contacts_all, query_custom_fields_all, query_folders_all, query_workflows;
    cbv zeta; traffic.
Qed.

Lemma session_extends (server : list request -> request -> result value)
    (calls : list call) (st : state) :
  extends st (session server calls st).
Proof.
  revert st. induction calls as [| c rest IH]; intros st; cbn.
  - apply extends_refl.
  - eapply extends_trans; [apply perform_extends | apply IH].
Qed.

Lemma session_requests_base
    (server : list request -> request -> result value)
    (calls : list call) (base token : string) (ssl : bool) :
  same_base (init base token ssl) (self (session server calls (constructed base token ssl))).
Proof. apply (session_extends server calls (constructed base token ssl)). Qed.

(** X15: whatever calls are made on a client after its construction,
    in whatever order and whether they return or raise, its base URL,
    headers and certificate setting stay those of the construction,
    and every request it has sent goes to a URL under the base URL
    with the [Accept] and bearer [Authorization] headers and the
    [verify] flag it was constructed with. *)
Theorem session_requests_carry_credentials
    (server : list request -> request -> result value)
    (calls : list call) (base token : string) (ssl : bool) :
  let final := session server calls (constructed base token ssl) in
  base_url (self final) = base /\
  ssl_verify (self final) = ssl /\
  __headers (self final) =
    [("Accept", "application/json"); ("Authorization", "Bearer " ++ token)] /\
  Forall (fun rq =>
            (exists path, url rq = base ++ path) /\
            headers rq =
              [("Accept", "application/json"); ("Authorization", "Bearer " ++ token)] /\
            verify rq = ssl)
         (log final).
Proof.
  cbv zeta.
  destruct (session_extends server calls (constructed base token ssl))
    as [(U & S & H) (new & L & F)].
  repeat split; try assumption.
  rewrite L. cbn [constructed log app]. exact F.
Qed.

(** X16: [reinitialize] after any sequence of calls gives back the
    object as [__init__] made it. *)
Theorem reinitialize_restores_construction
    (server : list request -> request -> result value)
    (calls : list call) (base token : string) (ssl : bool) :
  self (snd (reinitialize (session server calls (constructed base token ssl)))) =
  init base token ssl.
Proof.
  destruct (session_requests_base server calls base token ssl) as (U & S & H).
  destruct (session server calls (constructed base token ssl)) as [w l].
  cbn in *. unfold with_workflows, init. cbn. now rewrite U, S, H.
Qed.

(** ** More on the fetching accessors *)

(** X1: once an accessor has returned a non-empty dictionary, calling
    it again returns that dictionary and changes nothing: no request
    is sent and no cache is written. *)
Theorem cached_value_served_again
    (server : list request -> request -> result value)
    (k : kind) (st st1 : state) (d : value) :
  accessor server k st = (ok d, st1) ->
  truthy d = true ->
  accessor server k st1 = (ok d, st1).
Proof. apply accessor_twice. Qed.

Lemma cached_value_served_again_witness :
  accessor Scenario.two_folders Folders
    (snd (accessor Scenario.two_folders Folders Scenario.client)) =
  (ok (VDict [(VStr "IEAAAAA1", Scenario.inbox); (VStr "IEAAAAA2", Scenario.plans)]),
   snd (accessor Scenario.two_folders Folders Scenario.client)).
Proof.
  apply (cached_value_served_again Scenario.two_folders Folders Scenario.client);
    reflexivity.
Defined.

(** X2: when a fetching accessor has returned an empty dictionary, the
    next call sends the request again and returns what the new
    response gives. *)
Theorem empty_value_fetched_again
    (server : list request -> request -> result value)
    (k : kind) (st st1 : state) (d : value) :
  fetched k = true ->
  accessor server k st = (ok d, st1) ->
  truthy d = false ->
  fst (accessor server k st1) = populate (server (log st1) (fetch_request (self st1) k)) /\
  log (snd (accessor server k st1)) = (log st1 ++ [fetch_request (self st1) k])%list.
Proof.
  intros Hk Run Empty.
  pose proof (accessor_result_stored server k st st1 d Run) as Stored.
  rewrite (fetch_miss server k st1 Hk) by now rewrite Stored.
  now destruct (populate _).
Qed.

Lemma empty_value_fetched_again_witness :
  fst (accessor Scenario.late_contact Contacts
         (snd (accessor Scenario.late_contact Contacts Scenario.client))) =
  ok (VDict [(VStr "KUAAAAAA", Scenario.ann)]).
Proof.
  destruct (empty_value_fetched_again Scenario.late_contact Contacts Scenario.client
              (snd (accessor Scenario.late_contact Contacts Scenario.client))
              (VDict []) eq_refl eq_refl eq_refl) as [Value _].
  rewrite Value. reflexivity.
Defined.

(** X4: when the response to the fetch of a miss is a JSON object
    without a [data] member, the accessor raises [KeyError('data')],
    the request stays sent and no cache is written. *)
Theorem response_without_data
    (server : list request -> request -> result value)
    (k : kind) (st : state) (body : pydict) :
  fetched k = true ->
  truthy (slot k (self st)) = false ->
  server (log st) (fetch_request (self st) k) = ok (VDict body) ->
  dict_find body (VStr "data") = None ->
  accessor server k st =
  (raise (KeyError (VStr "data")), sent st (fetch_request (self st) k)).
Proof.
  intros Hk Miss Response NoData.
  rewrite (fetch_miss server k st Hk Miss), Response.
  unfold populate. cbn [rbind getitem]. unfold dict_getitem. cbn [hashable].
  now rewrite NoData.
Qed.

Lemma response_without_data_witness :
  accessor Scenario.refused Workflows Scenario.client =
  (raise (KeyError (VStr "data")),
   sent Scenario.client (fetch_request (self Scenario.client) Workflows)).
Proof.
  apply (response_without_data Scenario.refused Workflows Scenario.client
           [(VStr "error", VStr "not_authorized")]); reflexivity.
Defined.

(** ** More on the custom statuses *)

Lemma key_eqb_spec (a b : value) :
  key_eqb a b = true <-> key_of a = key_of b /\ key_of a <> None.
Proof.
  destruct a as [| [|] | z | s | l | d], b as [| [|] | z' | s' | l' | d'];
    cbn [key_eqb as_int key_of]; rewrite ?Z.eqb_eq, ?String.eqb_eq;
    (split; [intros H; try discriminate H; subst; (split; [reflexivity | discriminate])
            | intros [H N]; try discriminate H; try (now contradiction N);
              try (injection H as H; subst); try reflexivity; try congruence]).
Qed.

Lemma key_eqb_same_key (k k' id : value) :
  key_eqb k' k = true -> key_eqb k' id = key_eqb k id.
Proof.
  intros E. apply key_eqb_spec in E as [Same Some'].
  apply Bool.eq_true_iff_eq. rewrite !key_eqb_spec, <- Same. reflexivity.
Qed.

Lemma key_eqb_meet (k k' id : value) :
  key_eqb k' id = true -> key_eqb k id = true -> key_eqb k' k = true.
Proof.
  rewrite !key_eqb_spec. intros [A NA] [B NB]. split; [congruence | exact NA].
Qed.

(** Looking up after a store: the stored value under its key, the old
    answer under any other. *)
Lemma dict_find_put (d : pydict) (k v id : value) :
  dict_find (dict_put d k v) id = if key_eqb k id then Some v else dict_find d id.
Proof.
  induction d as [| [k' v'] r IH]; cbn [dict_put dict_find]; [reflexivity |].
  destruct (key_eqb k' k) eqn:E; cbn [dict_find].
  - rewrite (key_eqb_same_key k k' id E). now destruct (key_eqb k id).
  - rewrite IH. destruct (key_eqb k' id) eqn:E1, (key_eqb k id) eqn:E2; try reflexivity.
    now rewrite (key_eqb_meet k k' id E1 E2) in E.
Qed.

Lemma add_statuses_app (a b : list value) (table : value) :
  add_statuses (a ++ b) table = rbind (add_statuses a table) (add_statuses b).
Proof.
  revert table. induction a as [| x a IH]; intros table; cbn [app add_statuses rbind].
  - reflexivity.
  - destruct (getitem x (VStr "id")) as [e | k]; cbn [rbind]; [reflexivity |].
    destruct (setitem table k x) as [e | table']; cbn [rbind]; [reflexivity | apply IH].
Qed.

Lemma add_workflows_flatten (records : list value) (table table' : value) :
  add_workflows records table = ok table' ->
  exists statuses, flatten records = ok statuses /\ add_statuses statuses table = ok table'.
Proof.
  revert table. induction records as [| wf rest IH]; intros table; cbn [add_workflows flatten].
  - intros [= <-]. now exists [].
  - destruct (statuses_of wf) as [e | items]; cbn [rbind]; [discriminate |].
    destruct (add_statuses items table) as [e | mid] eqn:A; cbn [rbind]; [discriminate |].
    intros Run. destruct (IH _ Run) as (more & -> & Rest). cbn [rbind].
    exists (items ++ more)%list. split; [reflexivity |].
    now rewrite add_statuses_app, A.
Qed.

Lemma add_statuses_lookup (statuses : list value) (d : pydict) (table : value) :
  add_statuses statuses (VDict d) = ok table ->
  exists d',
    table = VDict d' /\
    forall id, dict_find d' id =
               match last_with_id statuses id with
               | Some later => Some later
               | None => dict_find d id
               end.
Proof.
  revert d. induction statuses as [| x rest IH]; intros d; cbn [add_statuses last_with_id].
  - intros [= <-]. now exists d.
  - unfold has_id.
    destruct (getitem x (VStr "id")) as [e | k]; cbn [rbind]; [discriminate |].
    unfold setitem, dict_setitem.
    destruct (hashable k); cbn [rbind]; [| discriminate].
    intros Run. destruct (IH _ Run) as (d' & -> & Look).
    exists d'. split; [reflexivity |]. intros id. rewrite Look, dict_find_put.
    destruct (last_with_id rest id); [reflexivity |]. now destruct (key_eqb k id).
Qed.

(** X5: the table [custom_statuses] derives answers a lookup of an id
    with the last custom status of that id, in the order of the
    workflow cache and of each workflow's list; an id no status has is
    not a key. *)
Theorem later_status_wins
    (server : list request -> request -> result value) (st : state)
    (all_workflows : pydict) (table : value) :
  truthy (_custom_statuses (self st)) = false ->
  fst (workflows server (stored CustomStatuses (VDict []) st)) = ok (VDict all_workflows) ->
  fst (custom_statuses server st) = ok table ->
  exists d statuses,
    table = VDict d /\
    flatten (values all_workflows) = ok statuses /\
    forall id, dict_find d id = last_with_id statuses id.
Proof.
  intros Miss Workflows Derived.
  destruct (custom_statuses_miss server st Miss) as (st' & Run & _).
  rewrite Run, Workflows in Derived. cbn [fst rbind] in Derived.
  unfold derive_statuses in Derived. cbn [values_of rbind] in Derived.
  destruct (add_workflows_flatten _ _ _ Derived) as (statuses & Flat & Added).
  destruct (add_statuses_lookup _ _ _ Added) as (d & -> & Look).
  exists d, statuses. split; [reflexivity |]. split; [exact Flat |].
  intros id. rewrite Look. now destruct (last_with_id statuses id).
Qed.

Lemma later_status_wins_witness :
  exists d statuses,
    VDict [(VStr "CS1", Scenario.renamed)] = VDict d /\
    flatten [Scenario.workflow [Scenario.blocked];
             Scenario.second_workflow [Scenario.renamed]] = ok statuses /\
    forall id, dict_find d id = last_with_id statuses id.
Proof.
  exact (later_status_wins Scenario.two_workflows Scenario.client
           [(VStr "WF1", Scenario.workflow [Scenario.blocked]);
            (VStr "WF2", Scenario.second_workflow [Scenario.renamed])]
           (VDict [(VStr "CS1", Scenario.renamed)]) eq_refl eq_refl eq_refl).
Defined.

(** The loops of [custom_statuses] leave in the cache the table they
    had reached when they stopped. *)
Lemma for_each_statuses_progress (items : list value) (st : state) :
  exists st',
    for_each items add_custom_status st =
      (outcome (fst (statuses_progress items (_custom_statuses (self st)))), st') /\
    same_but_statuses st st' /\
    _custom_statuses (self st') =
      snd (statuses_progress items (_custom_statuses (self st))).
Proof.
  revert st. induction items as [| x rest IH]; intros st.
  - exists st. cbn. repeat split.
  - cbn [for_each statuses_progress]. rewrite bind_run.
    unfold add_custom_status. rewrite bind_run. unfold lift at 1.
    destruct (getitem x (VStr "id")) as [e | k].
    + exists st. repeat split.
    + rewrite bind_run. unfold attr at 1. rewrite bind_run. unfold lift at 1.
      destruct (setitem (_custom_statuses (self st)) k x) as [e | table'].
      * exists st. repeat split.
      * unfold update.
        destruct (IH (stored CustomStatuses table' st)) as (st' & Run & Same & Final).
        exists st'. split; [exact Run |]. split; [| exact Final].
        eapply same_but_statuses_trans; [apply same_but_statuses_stored | exact Same].
Qed.

Lemma for_each_workflows_progress (records : list value) (st : state) :
  exists st',
    for_each records add_workflow st =
      (outcome (fst (workflows_progress records (_custom_statuses (self st)))), st') /\
    same_but_statuses st st' /\
    _custom_statuses (self st') =
      snd (workflows_progress records (_custom_statuses (self st))).
Proof.
  revert st. induction records as [| wf rest IH]; intros st.
  - exists st. cbn. repeat split.
  - cbn [for_each workflows_progress]. rewrite bind_run.
    unfold add_workflow, statuses_of. rewrite bind_run. unfold lift at 1.
    destruct (getitem wf (VStr "customStatuses")) as [e | statuses]; cbn [rbind].
    + exists st. repeat split.
    + rewrite bind_run. unfold lift at 1.
      destruct (iter statuses) as [e | items].
      * exists st. repeat split.
      * destruct (for_each_statuses_progress items st) as (st1 & Run1 & Same1 & Final1).
        rewrite Run1.
        destruct (statuses_progress items (_custom_statuses (self st)))
          as [[e |] table1]; cbn [fst snd outcome] in *.
        -- exists st1. repeat split; try apply Same1. exact Final1.
        -- destruct (IH st1) as (st' & Run & Same & Final).
           rewrite Final1 in Run, Final.
           exists st'. split; [exact Run |]. split; [| exact Final].
           eapply same_but_statuses_trans; eassumption.
Qed.

Lemma custom_statuses_progress
    (server : list request -> request -> result value) (st : state)
    (all_workflows : pydict) :
  truthy (_custom_statuses (self st)) = false ->
  fst (workflows server (stored CustomStatuses (VDict []) st)) = ok (VDict all_workflows) ->
  exists st',
    custom_statuses server st =
      (rbind (outcome (fst (workflows_progress (values all_workflows) (VDict []))))
             (fun _ => ok (snd (workflows_progress (values all_workflows) (VDict [])))),
       st') /\
    _custom_statuses (self st') =
      snd (workflows_progress (values all_workflows) (VDict [])).
Proof.
  intros Miss Workflows. unfold custom_statuses.
  rewrite bind_run. unfold attr at 1. cbv beta iota. rewrite Miss. cbn [negb].
  rewrite bind_run. rewrite bind_run. unfold update at 1. cbv beta iota.
  change {| self := with_custom_statuses (VDict []) (self st); log := log st |}
    with (stored CustomStatuses (VDict []) st).
  rewrite bind_run.
  pose proof (workflows_keeps_statuses server (stored CustomStatuses (VDict []) st)) as Keep.
  change (_custom_statuses (self (stored CustomStatuses (VDict []) st)))
    with (VDict []) in Keep.
  destruct (workflows server (stored CustomStatuses (VDict []) st)) as [[e | wfs] st1];
    cbn [fst snd] in *; [discriminate Workflows |].
  injection Workflows as ->.
  rewrite bind_run. unfold lift at 1. cbn [values_of].
  destruct (for_each_workflows_progress (values all_workflows) st1)
    as (st' & Run & Same & Final).
  rewrite Keep in Run, Final. rewrite Run.
  destruct (workflows_progress (values all_workflows) (VDict [])) as [[e |] table];
    cbn [fst snd outcome rbind] in *.
  - exists st'. split; [reflexivity | exact Final].
  - unfold attr. rewrite Final. exists st'. now split.
Qed.

Lemma workflows_progress_stops (pre post : list value) (bad table table' : value) (e : exn) :
  add_workflows pre table = ok table' ->
  statuses_of bad = raise e ->
  workflows_progress (pre ++ bad :: post) table = (Some e, table').
Proof.
  intros Pre Bad. revert table Pre.
  induction pre as [| wf rest IH]; intros table; cbn [app add_workflows workflows_progress].
  - intros [= <-]. now rewrite Bad.
  - destruct (statuses_of wf) as [e' | items]; cbn [rbind]; [discriminate |].
    assert (Items : forall t t', add_statuses items t = ok t' ->
                                 statuses_progress items t = (None, t')).
    { clear. induction items as [| x r IHi]; intros t t'; cbn [add_statuses statuses_progress].
      - now intros [= <-].
      - destruct (getitem x (VStr "id")) as [e | k]; cbn [rbind]; [discriminate |].
        destruct (setitem t k x) as [e | t1]; cbn [rbind]; [discriminate | apply IHi]. }
    destruct (add_statuses items table) as [e' | mid] eqn:A; cbn [rbind]; [discriminate |].
    rewrite (Items _ _ A). apply IH.
Qed.

(** X6: the derivation is not all-or-nothing.  When a workflow record
    without usable [customStatuses] follows records that have stored
    at least one status, [custom_statuses] raises, the statuses stored
    so far stay in the cache, and the next access returns that partial
    table without raising or fetching. *)
Theorem failed_derivation_keeps_partial_table
    (server : list request -> request -> result value) (st : state)
    (all_workflows : pydict) (pre post : list value) (bad table : value) (e : exn) :
  truthy (_custom_statuses (self st)) = false ->
  fst (workflows server (stored CustomStatuses (VDict []) st)) = ok (VDict all_workflows) ->
  values all_workflows = (pre ++ bad :: post)%list ->
  add_workflows pre (VDict []) = ok table ->
  truthy table = true ->
  statuses_of bad = raise e ->
  let st1 := snd (custom_statuses server st) in
  fst (custom_statuses server st) = raise e /\
  _custom_statuses (self st1) = table /\
  custom_statuses server st1 = (ok table, st1).
Proof.
  intros Miss Workflows Split Pre Full Bad. cbv zeta.
  destruct (custom_statuses_progress server st all_workflows Miss Workflows)
    as (st' & Run & Cache).
  rewrite Split, (workflows_progress_stops pre post bad (VDict []) table e Pre Bad)
    in Run, Cache.
  cbn [fst snd outcome rbind] in Run, Cache.
  rewrite Run. cbn [fst snd].
  split; [reflexivity |]. split; [exact Cache |].
  change (custom_statuses server) with (accessor server CustomStatuses).
  rewrite accessor_hit; cbn [slot]; rewrite Cache; [reflexivity | exact Full].
Qed.

Lemma failed_derivation_keeps_partial_table_witness :
  let st1 := snd (custom_statuses Scenario.half_broken Scenario.client) in
  fst (custom_statuses Scenario.half_broken Scenario.client) =
    raise (KeyError (VStr "customStatuses")) /\
  _custom_statuses (self st1) = VDict [(VStr "CS1", Scenario.blocked)] /\
  custom_statuses Scenario.half_broken st1 =
    (ok (VDict [(VStr "CS1", Scenario.blocked)]), st1).
Proof.
  apply (failed_derivation_keeps_partial_table Scenario.half_broken Scenario.client
           [(VStr "WF1", Scenario.workflow [Scenario.blocked]);
            (VStr "WF2", Scenario.broken_workflow)]
           [Scenario.workflow [Scenario.blocked]] [] Scenario.broken_workflow);
    reflexivity.
Defined.

(** ** Folders by title *)

Lemma eq_str_true (v : value) (s : string) : eq_str v s = true <-> v = VStr s.
Proof.
  destruct v; cbn; try (split; [discriminate | discriminate]).
  rewrite String.eqb_eq. split; [now intros -> | now intros [= ->]].
Qed.

Lemma query_folder_by_title_run
    (server : list request -> request -> result value) (title : string) (st : state) :
  query_folder_by_title server title st =
  match folders server st with
  | (inl e, st') => (raise e, st')
  | (inr all_folders, st') => (rbind (items_of all_folders) (first_titled title), st')
  end.
Proof.
  unfold query_folder_by_title. rewrite bind_run.
  destruct (folders server st) as [[e | fs] st']; [reflexivity |].
  rewrite bind_run. unfold lift. now destruct (items_of fs).
Qed.

Lemma none_titled_cons (title : string) (kf : value * value) (items : list (value * value)) :
  none_titled title (kf :: items) ->
  (exists found, getitem (snd kf) (VStr "title") = ok found /\ eq_str found title = false) /\
  none_titled title items.
Proof.
  intros None. split; [apply None; now left |].
  intros kf' Hin. apply None. now right.
Qed.

Lemma first_titled_none (title : string) (items : list (value * value)) :
  none_titled title items -> first_titled title items = ok VNone.
Proof.
  induction items as [| [key folder] rest IH]; intros None; cbn [first_titled];
    [reflexivity |].
  apply none_titled_cons in None as [(found & Title & Other) Rest].
  cbn [snd] in Title. rewrite Title. cbn [rbind]. rewrite Other. now apply IH.
Qed.

Lemma first_titled_skips (title : string) (before rest : list (value * value)) :
  none_titled title before ->
  first_titled title (before ++ rest) = first_titled title rest.
Proof.
  induction before as [| [key folder] more IH]; intros None; cbn [app first_titled];
    [reflexivity |].
  apply none_titled_cons in None as [(found & Title & Other) Rest].
  cbn [snd] in Title. rewrite Title. cbn [rbind]. rewrite Other. now apply IH.
Qed.

Lemma first_titled_inv (title : string) (items : list (value * value)) (v : value) :
  first_titled title items = ok v ->
  (v = VNone /\ none_titled title items) \/
  (exists before key after,
      items = (before ++ (key, v) :: after)%list /\
      none_titled title before /\
      getitem v (VStr "title") = ok (VStr title)).
Proof.
  induction items as [| [key folder] rest IH]; cbn [first_titled].
  - intros [= <-]. left. split; [reflexivity | intros kf []].
  - destruct (getitem folder (VStr "title")) as [e | found] eqn:Title; cbn [rbind];
      [discriminate |].
    destruct (eq_str found title) eqn:Eq.
    + intros [= <-]. right. exists [], key, rest. split; [reflexivity |].
      split; [intros kf [] |]. apply eq_str_true in Eq. now subst.
    + intros Run. assert (Head : none_titled title [(key, folder)]).
      { intros kf [<- | []]. now exists found. }
      destruct (IH Run) as [[-> None] | (before & k & after & -> & None & Has)].
      * left. split; [reflexivity |].
        intros kf [<- | Hin]; [now exists found | now apply None].
      * right. exists ((key, folder) :: before), k, after.
        split; [reflexivity |]. split; [| exact Has].
        intros kf [<- | Hin]; [now exists found | now apply None].
Qed.

Lemma folder_by_title_found
    (server : list request -> request -> result value) (title : string)
    (st st' : state) (before after : list (value * value)) (key folder : value) :
  folders server st = (ok (VDict (before ++ (key, folder) :: after)), st') ->
  none_titled title before ->
  getitem folder (VStr "title") = ok (VStr title) ->
  query_folder_by_title server title st = (ok folder, st').
Proof.
  intros Cache None Title.
  rewrite query_folder_by_title_run, Cache. cbn [items_of rbind].
  rewrite (first_titled_skips title before _ None). cbn [first_titled].
  rewrite Title. cbn [rbind eq_str]. now rewrite String.eqb_refl.
Qed.

(** X7: [query_folder_by_title] returns the first folder of the cache,
    in cache order, whose title is the one asked for, provided every
    folder before it has a title; the state is the one the [folders]
    accessor leaves. *)
Theorem folder_by_title_first_match
    (server : list request -> request -> result value) (title : string)
    (st st' : state) (before after : list (value * value)) (key folder : value) :
  folders server st = (ok (VDict (before ++ (key, folder) :: after)), st') ->
  none_titled title before ->
  getitem folder (VStr "title") = ok (VStr title) ->
  query_folder_by_title server title st = (ok folder, st').
Proof. apply folder_by_title_found. Qed.

Lemma folder_by_title_first_match_witness :
  query_folder_by_title Scenario.two_folders "Plans" Scenario.client =
  (ok Scenario.plans, snd (folders Scenario.two_folders Scenario.client)).
Proof.
  apply (folder_by_title_first_match Scenario.two_folders "Plans" Scenario.client _
           [(VStr "IEAAAAA1", Scenario.inbox)] [] (VStr "IEAAAAA2") Scenario.plans).
  - reflexivity.
  - intros kf [<- | []]. exists (VStr "Inbox"). now split.
  - reflexivity.
Defined.

(** X8: what [query_folder_by_title] returns is [None] only when every
    cached folder has a title and none has the one asked for, and is
    otherwise a folder of the cache with exactly that title. *)
Theorem folder_by_title_result
    (server : list request -> request -> result value) (title : string)
    (st st' : state) (v : value) :
  query_folder_by_title server title st = (ok v, st') ->
  exists d,
    folders server st = (ok (VDict d), st') /\
    ((v = VNone /\ none_titled title d) \/
     (In v (values d) /\ getitem v (VStr "title") = ok (VStr title))).
Proof.
  rewrite query_folder_by_title_run.
  destruct (folders server st) as [[e | fs] st1]; [discriminate |].
  destruct fs as [| | | | | d]; cbn [items_of rbind]; try discriminate.
  intros [= Run <-]. exists d. split; [reflexivity |].
  destruct (first_titled_inv title d v Run) as [Nothing | (before & k & after & -> & _ & Has)].
  - now left.
  - right. split; [| exact Has].
    unfold values. rewrite map_app. apply in_or_app. right. now left.
Qed.

Lemma folder_by_title_result_witness :
  exists d,
    folders Scenario.two_folders Scenario.client =
      (ok (VDict d), snd (folders Scenario.two_folders Scenario.client)) /\
    ((VNone = VNone /\ none_titled "Archive" d) \/
     (In VNone (values d) /\ getitem VNone (VStr "title") = ok (VStr "Archive"))).
Proof.
  apply (folder_by_title_result Scenario.two_folders "Archive" Scenario.client).
  reflexivity.
Defined.

(** X9: when no cached folder has the title (and each has one),
    [query_folder_subtrees_by_title] raises [TypeError], from
    subscripting the [None] the lookup returned, and sends no subtree
    request. *)
Theorem subtrees_by_unknown_title
    (server : list request -> request -> result value) (title : string)
    (st st' : state) (d : pydict) :
  folders server st = (ok (VDict d), st') ->
  none_titled title d ->
  query_folder_subtrees_by_title server title st = (raise TypeError, st').
Proof.
  intros Cache None. unfold query_folder_subtrees_by_title.
  rewrite bind_run, query_folder_by_title_run, Cache. cbn [items_of rbind].
  now rewrite (first_titled_none title d None).
Qed.

Lemma subtrees_by_unknown_title_witness :
  query_folder_subtrees_by_title Scenario.two_folders "Archive" Scenario.client =
  (raise TypeError, snd (folders Scenario.two_folders Scenario.client)).
Proof.
  apply (subtrees_by_unknown_title Scenario.two_folders "Archive" Scenario.client _
           [(VStr "IEAAAAA1", Scenario.inbox); (VStr "IEAAAAA2", Scenario.plans)]).
  - reflexivity.
  - intros kf [<- | [<- | []]]; [exists (VStr "Inbox") | exists (VStr "Plans")]; now split.
Defined.

(** X10: when the folder is found and has an [id],
    [query_folder_subtrees_by_title] sends one GET to
    [folders/<id>/folders], the id rendered with [str], after whatever
    the [folders] accessor sent, and returns its response. *)
Theorem subtrees_by_known_title
    (server : list request -> request -> result value) (title : string)
    (st st' : state) (before after : list (value * value)) (key folder id : value) :
  folders server st = (ok (VDict (before ++ (key, folder) :: after)), st') ->
  none_titled title before ->
  getitem folder (VStr "title") = ok (VStr title) ->
  getitem folder (VStr "id") = ok id ->
  let rq := get_request (self st') ("folders/" ++ str id ++ "/folders") None in
  query_folder_subtrees_by_title server title st = (server (log st') rq, sent st' rq).
Proof.
  intros Cache None Title Id. cbv zeta. unfold query_folder_subtrees_by_title.
  rewrite bind_run.
  rewrite (folder_by_title_found server title st st' before after key folder Cache None Title).
  rewrite bind_run. unfold lift at 1. rewrite Id.
  unfold query_folder_subtrees. apply get_run.
Qed.

Lemma subtrees_by_known_title_witness :
  let st' := snd (folders Scenario.two_folders Scenario.client) in
  let rq := get_request (self st') "folders/IEAAAAA2/folders" None in
  query_folder_subtrees_by_title Scenario.two_folders "Plans" Scenario.client =
  (Scenario.two_folders (log st') rq, sent st' rq).
Proof.
  apply (subtrees_by_known_title Scenario.two_folders "Plans" Scenario.client _
           [(VStr "IEAAAAA1", Scenario.inbox)] [] (VStr "IEAAAAA2") Scenario.plans
           (VStr "IEAAAAA2")).
  - reflexivity.
  - intros kf [<- | []]. exists (VStr "Inbox"). now split.
  - reflexivity.
  - reflexivity.
Defined.

(** ** More on the project status *)

Lemma seq_getitem_nonempty (l : list value) (i : Z) (v : value) :
  seq_getitem l i = ok v -> l <> [].
Proof.
  intros Got ->. unfold seq_getitem in Got. cbn [List.length Z.of_nat] in Got.
  destruct (i <? 0) eqn:Neg.
  - rewrite Z.add_0_r, Neg in Got. discriminate Got.
  - destruct (0 <=? i) eqn:Pos; [rewrite orb_true_r in Got; discriminate Got |].
    apply Z.ltb_ge in Neg. apply Z.leb_gt in Pos. lia.
Qed.

(** Subscription only succeeds on a non-empty container. *)
Lemma getitem_truthy (x k v : value) : getitem x k = ok v -> truthy x = true.
Proof.
  destruct x as [| b | z | s | l | d]; cbn [getitem]; try discriminate.
  - destruct (as_int k) as [i |]; [| discriminate].
    intros Got. apply seq_getitem_nonempty in Got. now destruct s.
  - destruct (as_int k) as [i |]; [| discriminate].
    intros Got. apply seq_getitem_nonempty in Got. now destruct l.
  - unfold dict_getitem. destruct (hashable k); [| discriminate].
    destruct d; [discriminate | reflexivity].
Qed.

(** X11: a call of [extract_project_status] that returned repeats
    itself: called again on the state it left, it returns the same
    status and changes nothing; and once a custom status has been
    resolved, no later extraction, for any folder, sends a request or
    writes a cache. *)
Theorem extract_project_status_settles
    (server : list request -> request -> result value)
    (folder : value) (st st' : state) (v : value) :
  extract_project_status server folder st = (ok v, st') ->
  extract_project_status server folder st' = (ok v, st') /\
  (status_of folder = VStr "Custom" /\ truthy (custom_status_id_of folder) = true ->
   forall other, snd (extract_project_status server other st') = st').
Proof.
  intros Run.
  destruct (String.eqb (str (status_of folder)) "Custom"
            && truthy (custom_status_id_of folder)) eqn:R.
  - apply resolves_iff in R as [Custom Present].
    rewrite (extract_project_status_resolving server folder st Custom Present) in Run.
    rewrite bind_run in Run.
    destruct (custom_statuses server st) as [[e | table] st1] eqn:Table;
      [discriminate Run |].
    rewrite bind_run in Run. unfold lift in Run.
    destruct (getitem table (custom_status_id_of folder)) as [e | record] eqn:Record;
      [discriminate Run |].
    injection Run as Name <-.
    pose proof (accessor_twice server CustomStatuses st st1 table Table
                  (getitem_truthy _ _ _ Record)) as Again.
    cbn [accessor] in Again. split.
    + rewrite (extract_project_status_resolving server folder st1 Custom Present).
      rewrite bind_run, Again, bind_run. unfold lift. now rewrite Record, Name.
    + intros _ other.
      destruct (String.eqb (str (status_of other)) "Custom"
                && truthy (custom_status_id_of other)) eqn:R'.
      * apply resolves_iff in R' as [Custom' Present'].
        rewrite (extract_project_status_resolving server other st1 Custom' Present').
        rewrite bind_run, Again, bind_run. unfold lift.
        destruct (getitem table (custom_status_id_of other)); [reflexivity |].
        now destruct (getitem _ (VStr "name")).
      * rewrite extract_project_status_plain; [reflexivity |].
        rewrite <- resolves_iff, R'. discriminate.
  - assert (Plain : ~ (status_of folder = VStr "Custom" /\
                       truthy (custom_status_id_of folder) = true))
      by (rewrite <- resolves_iff, R; discriminate).
    rewrite (extract_project_status_plain server folder st Plain) in Run.
    injection Run as <- <-. split.
    + now apply extract_project_status_plain.
    + intros Resolved. now contradiction Plain.
Qed.

Lemma extract_project_status_settles_witness :
  let st' := snd (extract_project_status Scenario.one_workflow
                    (Scenario.custom_folder "CS1") Scenario.client) in
  extract_project_status Scenario.one_workflow (Scenario.custom_folder "CS1") st' =
    (ok (VStr "Blocked"), st') /\
  (status_of (Scenario.custom_folder "CS1") = VStr "Custom" /\
   truthy (custom_status_id_of (Scenario.custom_folder "CS1")) = true ->
   forall other, snd (extract_project_status Scenario.one_workflow other st') = st').
Proof.
  apply (extract_project_status_settles Scenario.one_workflow
           (Scenario.custom_folder "CS1") Scenario.client).
  reflexivity.
Defined.

(** X12: [extract_project_value_from_folder] returns a value other
    than [None] exactly when the folder is a dictionary whose
    [project] is a dictionary holding that value under the key. *)
Theorem project_value_present (key : string) (folder v : value) :
  v <> VNone ->
  (extract_project_value_from_folder key folder = v <->
   exists d p,
     folder = VDict d /\
     dict_find d (VStr "project") = Some (VDict p) /\
     dict_find p (VStr key) = Some v).
Proof.
  intros NotNone. unfold extract_project_value_from_folder, project_value. split.
  - destruct folder as [| b | z | s | l | d]; cbn [getitem as_int rbind];
      try (intros <-; now contradiction NotNone).
    unfold dict_getitem. cbn [hashable].
    destruct (dict_find d (VStr "project")) as [project |] eqn:P; cbn [rbind];
      [| intros <-; now contradiction NotNone].
    destruct project as [| b | z | s | l | p]; cbn [getitem as_int];
      try (intros <-; now contradiction NotNone).
    unfold dict_getitem. cbn [hashable].
    destruct (dict_find p (VStr key)) as [found |] eqn:K;
      [| intros <-; now contradiction NotNone].
    intros <-. now exists d, p.
  - intros (d & p & -> & P & K). cbn [getitem]. unfold dict_getitem. cbn [hashable].
    rewrite P. cbn [rbind getitem]. unfold dict_getitem. cbn [hashable]. now rewrite K.
Qed.

Lemma project_value_present_witness :
  extract_project_value_from_folder "customStatusId" (Scenario.custom_folder "CS1") =
  VStr "CS1".
Proof.
  apply (project_value_present "customStatusId" (Scenario.custom_folder "CS1") (VStr "CS1")).
  - discriminate.
  - exists [(VStr "project",
             Scenario.obj [("status", VStr "Custom"); ("customStatusId", VStr "CS1")])],
           [(VStr "status", VStr "Custom"); (VStr "customStatusId", VStr "CS1")].
    repeat split.
Defined.

(** ** Ids and dates on the wire *)

Lemma repr_char_plain (c : ascii) :
  plain_char c = true -> repr_char squote c = String c "".
Proof.
  unfold plain_char, repr_char. cbv zeta.
  intros H. apply andb_true_iff in H as [H NoBackslash].
  apply andb_true_iff in H as [H NoQuote].
  apply andb_true_iff in H as [Low High].
  apply negb_true_iff in NoQuote, NoBackslash. rewrite NoQuote, NoBackslash.
  apply N.leb_le in Low. apply N.ltb_lt in High. cbn [orb].
  replace (N_of_ascii c =? 9)%N with false by (symmetry; apply N.eqb_neq; lia).
  replace (N_of_ascii c =? 10)%N with false by (symmetry; apply N.eqb_neq; lia).
  replace (N_of_ascii c =? 13)%N with false by (symmetry; apply N.eqb_neq; lia).
  replace (N_of_ascii c <? 32)%N with false by (symmetry; apply N.ltb_ge; lia).
  replace (N_of_ascii c =? 127)%N with false by (symmetry; apply N.eqb_neq; lia).
  replace (N_of_ascii c <? 127)%N with true by (symmetry; apply N.ltb_lt; lia).
  reflexivity.
Qed.

Lemma plain_no_quote (s : string) : plain s = true -> contains_char squote s = false.
Proof.
  induction s as [| c r IH]; cbn [plain contains_char]; [reflexivity |].
  intros H. apply andb_true_iff in H as [Hc Hr]. rewrite (IH Hr), orb_false_r.
  unfold plain_char in Hc. cbv zeta in Hc.
  apply andb_true_iff in Hc as [Hc _]. apply andb_true_iff in Hc as [_ NoQuote].
  now apply negb_true_iff in NoQuote.
Qed.

Lemma repr_chars_plain (s : string) : plain s = true -> repr_chars squote s = s.
Proof.
  induction s as [| c r IH]; cbn [plain repr_chars]; [reflexivity |].
  intros H. apply andb_true_iff in H as [Hc Hr].
  now rewrite (repr_char_plain c Hc), (IH Hr).
Qed.

(** A string of printable ASCII characters without quote or backslash
    is rendered between single quotes, unchanged. *)
Lemma repr_str_of_plain (s : string) : plain s = true -> repr_str s = quoted s.
Proof.
  intros H. unfold repr_str, repr_quote, quoted.
  rewrite (plain_no_quote s H). cbn [andb]. now rewrite (repr_chars_plain s H).
Qed.

Lemma map_repr_str_plain (l : list string) :
  Forall (fun s => plain s = true) l -> map repr_str l = map quoted l.
Proof.
  induction 1 as [| s r Hs _ IH]; cbn [map]; [reflexivity |].
  now rewrite (repr_str_of_plain s Hs), IH.
Qed.

(** X13: when every id is made of printable ASCII characters other
    than the single quote and the backslash, the [ids] parameter
    [convert_to_id4s] sends is the ids, each between single quotes,
    separated by a comma and a space, in square brackets. *)
Theorem plain_ids_on_the_wire
    (server : list request -> request -> result value)
    (id2s : list string) (idType : IdTypes) (st : state) :
  Forall (fun s => plain s = true) id2s ->
  let rq := {| meth := GET;
               url := base_url (self st) ++ "ids/";
               headers := __headers (self st);
               params := Some [("type", IdTypes_value idType);
                               ("ids", "[" ++ join ", " (map quoted id2s) ++ "]")];
               json := None;
               verify := ssl_verify (self st) |} in
  convert_to_id4s server id2s idType st =
    (server (log st) rq, {| self := self st; log := (log st ++ [rq])%list |}).
Proof.
  intros Plain. cbv zeta. unfold convert_to_id4s. cbv zeta.
  now rewrite get_run, str_string_list, (map_repr_str_plain id2s Plain).
Qed.

Lemma plain_ids_on_the_wire_witness :
  let rq := {| meth := GET;
               url := "https://www.wrike.com/api/v4/ids/";
               headers := [("Accept", "application/json");
                           ("Authorization", "Bearer token")];
               params := Some [("type", "ApiV2Task"); ("ids", "['1001', '1002']")];
               json := None;
               verify := true |} in
  convert_to_id4s Scenario.unreachable ["1001"; "1002"] TASK Scenario.client =
  (raise (Raised "ConnectionError"),
   {| self := self Scenario.client; log := [rq] |}).
Proof.
  apply (plain_ids_on_the_wire Scenario.unreachable ["1001"; "1002"] TASK Scenario.client).
  repeat constructor.
Defined.

(** X14: with dates made of such characters, the [trackedDate]
    parameter of [query_timelogs] is [{'equal': 'd'}] for one date
    and [{'start': 'd0', 'end': 'd1'}] for two, the dates unchanged. *)
Theorem plain_dates_on_the_wire
    (server : list request -> request -> result value)
    (location d0 d1 : string) (st : state) :
  plain d0 = true ->
  plain d1 = true ->
  let one := {| meth := GET;
                url := base_url (self st) ++ location ++ "/timelogs";
                headers := __headers (self st);
                params := Some [("descendants", "true");
                                ("trackedDate", "{'equal': '" ++ d0 ++ "'}")];
                json := None;
                verify := ssl_verify (self st) |} in
  let two := {| meth := GET;
                url := base_url (self st) ++ location ++ "/timelogs";
                headers := __headers (self st);
                params := Some [("descendants", "true");
                                ("trackedDate",
                                 "{'start': '" ++ d0 ++ "', 'end': '" ++ d1 ++ "'}")];
                json := None;
                verify := ssl_verify (self st) |} in
  query_timelogs server location [d0] st =
    (server (log st) one, {| self := self st; log := (log st ++ [one])%list |}) /\
  query_timelogs server location [d0; d1] st =
    (server (log st) two, {| self := self st; log := (log st ++ [two])%list |}).
Proof.
  intros P0 P1. cbv zeta.
  assert (Q0 : "{'equal': '" ++ d0 ++ "'}" = str (VDict [(VStr "equal", VStr d0)])).
  { rewrite str_equal_filter, (repr_str_of_plain d0 P0). unfold quoted.
    cbn [append]. now rewrite !append_assoc. }
  assert (Q1 : "{'start': '" ++ d0 ++ "', 'end': '" ++ d1 ++ "'}" =
               str (VDict [(VStr "start", VStr d0); (VStr "end", VStr d1)])).
  { rewrite str_range_filter, (repr_str_of_plain d0 P0), (repr_str_of_plain d1 P1).
    unfold quoted. cbn [append]. now rewrite !append_assoc. }
  rewrite Q0, Q1. split; reflexivity.
Qed.

Lemma plain_dates_on_the_wire_witness :
  let two := {| meth := GET;
                url := "https://www.wrike.com/api/v4/tasks/T1/timelogs";
                headers := [("Accept", "application/json");
                            ("Authorization", "Bearer token")];
                params := Some [("descendants", "true");
                                ("trackedDate",
                                 "{'start': '2024-01-01', 'end': '2024-01-31'}")];
                json := None;
                verify := true |} in
  query_timelogs Scenario.unreachable "tasks/T1" ["2024-01-01"; "2024-01-31"]
    Scenario.client =
  (raise (Raised "ConnectionError"),
   {| self := self Scenario.client; log := [two] |}).
Proof.
  apply (plain_dates_on_the_wire Scenario.unreachable "tasks/T1"
           "2024-01-01" "2024-01-31" Scenario.client); reflexivity.
Defined.

(** ** Failures on the way *)

(** X17: when both the custom-status and the workflow cache are
    unpopulated and the workflows fetch raises, [custom_statuses]
    raises the same exception; the workflow cache is not written, the
    custom-status cache is left holding the empty dictionary it was
    given before the fetch, and the next access fetches again. *)
Theorem custom_statuses_fetch_failure
    (server : list request -> request -> result value) (st : state) (e : exn) :
  truthy (_custom_statuses (self st)) = false ->
  truthy (_workflows (self st)) = false ->
  server (log st) (fetch_request (self st) Workflows) = raise e ->
  let rq := fetch_request (self st) Workflows in
  let st1 := sent (stored CustomStatuses (VDict []) st) rq in
  custom_statuses server st = (raise e, st1) /\
  _custom_statuses (self st1) = VDict [] /\
  _workflows (self st1) = _workflows (self st) /\
  log (snd (custom_statuses server st1)) = (log st ++ [rq; rq])%list.
Proof.
  intros Miss NoWorkflows Fails. cbv zeta.
  assert (Run : forall s, truthy (_custom_statuses (self s)) = false ->
                          truthy (_workflows (self s)) = false ->
                          server (log s) (fetch_request (self s) Workflows) = raise e ->
                          custom_statuses server s =
                          (raise e, sent (stored CustomStatuses (VDict []) s)
                                         (fetch_request (self s) Workflows))).
  { clear. intros s Miss NoWorkflows Fails. unfold custom_statuses.
    rewrite bind_run. unfold attr at 1. cbv beta iota. rewrite Miss. cbn [negb].
    rewrite bind_run. rewrite bind_run. unfold update at 1. cbv beta iota.
    change {| self := with_custom_statuses (VDict []) (self s); log := log s |}
      with (stored CustomStatuses (VDict []) s).
    rewrite bind_run.
    change (workflows server (stored CustomStatuses (VDict []) s))
      with (accessor server Workflows (stored CustomStatuses (VDict []) s)).
    rewrite (fetch_miss server Workflows (stored CustomStatuses (VDict []) s)
               eq_refl NoWorkflows).
    change (fetch_request (self (stored CustomStatuses (VDict []) s)) Workflows)
      with (fetch_request (self s) Workflows).
    change (log (stored CustomStatuses (VDict []) s)) with (log s).
    rewrite Fails. reflexivity. }
  split; [now apply Run |]. split; [reflexivity |]. split; [reflexivity |].
  set (st1 := sent (stored CustomStatuses (VDict []) st) (fetch_request (self st) Workflows)).
  pose proof (custom_statuses_miss server st1 eq_refl) as (st2 & Again & Same).
  rewrite Again. cbn [snd]. destruct Same as [-> _].
  change (workflows server (stored CustomStatuses (VDict []) st1))
    with (accessor server Workflows (stored CustomStatuses (VDict []) st1)).
  rewrite (fetch_miss server Workflows (stored CustomStatuses (VDict []) st1)
             eq_refl NoWorkflows).
  destruct (populate _); cbn [snd stored sent log st1]; now rewrite <- app_assoc.
Qed.

Lemma custom_statuses_fetch_failure_witness :
  let rq := fetch_request (self Scenario.client) Workflows in
  let st1 := sent (stored CustomStatuses (VDict []) Scenario.client) rq in
  custom_statuses Scenario.unreachable Scenario.client =
    (raise (Raised "ConnectionError"), st1) /\
  _custom_statuses (self st1) = VDict [] /\
  _workflows (self st1) = _workflows (self Scenario.client) /\
  log (snd (custom_statuses Scenario.unreachable st1)) =
    (log Scenario.client ++ [rq; rq])%list.
Proof.
  apply (custom_statuses_fetch_failure Scenario.unreachable Scenario.client
           (Raised "ConnectionError")); reflexivity.
Defined.

(** X18: when a cached folder cannot give a title (it has none, or is
    not a dictionary) and no folder before it has the title asked for,
    [query_folder_by_title] raises that folder's exception, even if a
    later folder has the title. *)
Theorem folder_by_title_untitled
    (server : list request -> request -> result value) (title : string)
    (st st' : state) (before after : list (value * value)) (key folder : value) (e : exn) :
  folders server st = (ok (VDict (before ++ (key, folder) :: after)), st') ->
  none_titled title before ->
  getitem folder (VStr "title") = raise e ->
  query_folder_by_title server title st = (raise e, st').
Proof.
  intros Cache None NoTitle.
  rewrite query_folder_by_title_run, Cache. cbn [items_of rbind].
  rewrite (first_titled_skips title before _ None). cbn [first_titled].
  now rewrite NoTitle.
Qed.

Lemma folder_by_title_untitled_witness :
  query_folder_by_title Scenario.three_folders "Plans" Scenario.client =
  (raise (KeyError (VStr "title")), snd (folders Scenario.three_folders Scenario.client)).
Proof.
  apply (folder_by_title_untitled Scenario.three_folders "Plans" Scenario.client _
           [] [(VStr "IEAAAAA1", Scenario.inbox); (VStr "IEAAAAA2", Scenario.plans)]
           (VStr "IEAAAAA0") Scenario.untitled).
  - reflexivity.
  - intros kf [].
  - reflexivity.
Defined.
